(** * bolo-calc: the Instrument orchestrator (python/bolo/instrument.py)

    A shallow embedding of class [Instrument]: the four evaluation stages
    ([eval_sky], [eval_instrument], [eval_sensitivities], [make_tables]),
    [write_tables] and [run].

    The methods mutate the Instrument ([_sns_dict], [_tables]) and call
    into objects defined elsewhere (the universe, the [obs_effic]
    parameter, cameras, [Sensitivity], [TableDict], astropy's [vstack]).
    They are embedded in a state-and-exception monad whose state is the
    Instrument together with the trace of calls made on those objects. *)

From Stdlib Require Import ZArith List String Bool Lia.
Import ListNotations.

Local Open Scope list_scope.
Local Open Scope Z_scope.
Local Open Scope string_scope.

(** ** Python strings: [str.find] *)

Module PyStr.

(** [find_from sub s i]: index of the first occurrence of [sub] in [s],
    counting the head of [s] as index [i]; [-1] when there is none. *)
Fixpoint find_from (sub s : string) (i : Z) : Z :=
  if String.prefix sub s then i
  else match s with
       | EmptyString => -1
       | String _ s' => find_from sub s' (i + 1)
       end.

(** [s.find(sub)] *)
Definition find (s sub : string) : Z := find_from sub s 0.

(** [sub in s], said in words: [s] is [pre ++ sub ++ post]. *)
Definition contains (s sub : string) : Prop :=
  exists pre post : string, s = pre ++ sub ++ post.

(** [s.startswith(sub)] *)
Definition startswith (s sub : string) : Prop :=
  exists post : string, s = sub ++ post.

End PyStr.

(** ** Ordered dictionaries with string keys
    ([collections.OrderedDict], and the mapping inside [TableDict]).
    Items are kept in insertion order; keys are unique. *)

Module ODict.
Section Defs.
Context {V : Type}.

Definition t : Type := list (string * V).

Definition empty : t := [].

Definition items (d : t) : list (string * V) := d.
Definition keys (d : t) : list string := map fst d.
Definition values (d : t) : list V := map snd d.

(** [d[k]], [None] standing for KeyError *)
Fixpoint get (k : string) (d : t) : option V :=
  match d with
  | [] => None
  | (k', v) :: r => if String.eqb k' k then Some v else get k r
  end.

(** [d[k] = v]: an existing key keeps its place and takes the new
    value, a new key goes to the end. *)
Fixpoint set (k : string) (v : V) (d : t) : t :=
  match d with
  | [] => [(k, v)]
  | (k', v') :: r =>
      if String.eqb k' k then (k', v) :: r else (k', v') :: set k v r
  end.

(** [d.pop(k)], [None] standing for KeyError *)
Fixpoint pop (k : string) (d : t) : option (V * t) :=
  match d with
  | [] => None
  | (k', v) :: r =>
      if String.eqb k' k then Some (v, r)
      else match pop k r with
           | Some (x, r') => Some (x, (k', v) :: r')
           | None => None
           end
  end.

(** [bool(d)] *)
Definition truthy (d : t) : bool :=
  match d with [] => false | _ :: _ => true end.

End Defs.
Arguments t : clear implicits.
End ODict.

Abbreviation odict := ODict.t.

(** ** Exceptions *)

Inductive exn : Type :=
| AttributeError   (* method call on None *)
| TypeError        (* item assignment on None *)
| KeyError         (* pop of a missing key *)
| ValueError.      (* vstack of no table *)

Inductive outcome (A : Type) : Type :=
| Ret (a : A)
| Raise (e : exn).
Arguments Ret {A} a.
Arguments Raise {A} e.

(** What a Sensitivity writes for its channel is its own business: the
    rows of its summary table and of its per-sample table, and the suffix
    under which it files the per-sample table. *)
Class SensitivityRows (Channel Row : Type) : Type := {
  summary_rows : Channel -> list Row;
  sims_rows : Channel -> list Row;
  sims_suffix : string
}.

Section Bolo.

(** The objects the Instrument only passes along are opaque:
    the sky model, the frequency resolution, a channel, a table row. *)
Context {Universe FreqResol Channel Row : Type}.
Context {rows : SensitivityRows Channel Row}.

(** A camera exposes [channels], a mapping from channel name to Channel. *)
Record Camera : Type := { channels : odict Channel }.

(** Modelled from the spec: class Sensitivity (bolo/sensitivity.py), which
    is constructible from one evaluated Channel. *)
Record Sensitivity : Type := { sns_channel : Channel }.

Definition Table : Type := list Row.

(** Modelled from the spec: class TableDict (bolo/data_utils.py), an
    ordered mapping from table name to table, with insertion, pop and
    enumeration of keys. *)
Definition TableDict : Type := odict Table.

(** The configuration object read by [run]. *)
Record SimConfig : Type := {
  nsky_sim : Z;
  ndet_sim : Z;
  freq_resol : FreqResol;
  save_summary : bool;
  save_sim : bool
}.

(** The part of the Instrument the methods read and write. *)
Record Instrument : Type := {
  cameras : odict Camera;
  _tables : option TableDict;
  _sns_dict : option (odict Sensitivity)
}.

(** [def __init__(self, **kwargs)], for the fields the methods read:
    the cameras [build_cameras] made, no table collection and no
    Sensitivity yet. That each camera is also stored under its name as an
    attribute and given its parent is left out. *)
Definition __init__ (cams : odict Camera) : Instrument :=
  {| cameras := cams; _tables := None; _sns_dict := None |}.

(** Calls made on the collaborating objects. A camera object is named by
    its key in [cameras]. *)
Inductive call : Type :=
| Universe_sample (u : Universe) (n : Z)
| ObsEffic_sample (n : Z)
| Camera_eval_sky (cam : string) (u : Universe) (fr : FreqResol)
| Camera_sample (cam : string) (n : Z)
| Camera_eval_optical_chains (cam : string) (n : Z) (fr : FreqResol)
| Camera_eval_det_response (cam : string) (n : Z) (fr : FreqResol)
| Sensitivity_init (ch : Channel)
| Sns_make_tables (sns : Sensitivity) (base_name : string)
                          (save_summary save_sim : bool)
| Vstack (tables : list Table)
| Save_datatables (filename : string) (tables : TableDict).

(** ** The monad: state is the Instrument and the trace of calls,
    oldest first; an exception keeps the state reached when raised. *)

Record State : Type := { self : Instrument; trace : list call }.

Definition M (A : Type) : Type := State -> outcome A * State.

Definition ret {A} (a : A) : M A := fun s => (Ret a, s).

Definition raise {A} (e : exn) : M A := fun s => (Raise e, s).

Definition bind {A B} (m : M A) (k : A -> M B) : M B :=
  fun s => match m s with
           | (Ret a, s') => k a s'
           | (Raise e, s') => (Raise e, s')
           end.

Notation "x <- m ;; k" := (bind m (fun x => k))
  (at level 61, m at next level, right associativity).
Notation "m ;; k" := (bind m (fun _ => k))
  (at level 61, right associativity).

Definition get_self : M Instrument := fun s => (Ret (self s), s).

Definition put_self (i : Instrument) : M unit :=
  fun s => (Ret tt, {| self := i; trace := trace s |}).

Definition emit (c : call) : M unit :=
  fun s => (Ret tt, {| self := self s; trace := (trace s ++ [c])%list |}).

(** [for x in xs: body x] *)
Fixpoint for_ {A} (xs : list A) (body : A -> M unit) : M unit :=
  match xs with
  | [] => ret tt
  | x :: r => body x ;; for_ r body
  end.

(** [[f x for x in xs]] *)
Fixpoint comprehension {A B} (xs : list A) (f : A -> M B) : M (list B) :=
  match xs with
  | [] => ret []
  | x :: r => y <- f x ;; ys <- comprehension r f ;; ret (y :: ys)
  end.

(** [self._tables = v], [self._sns_dict = v] *)
Definition set_tables (v : option TableDict) : M unit :=
  i <- get_self ;;
  put_self {| cameras := cameras i; _tables := v; _sns_dict := _sns_dict i |}.

Definition set_sns_dict (v : option (odict Sensitivity)) : M unit :=
  i <- get_self ;;
  put_self {| cameras := cameras i; _tables := _tables i; _sns_dict := v |}.

(** The value of [self._tables]: None or the collection. *)
Definition get_tables : M (option TableDict) :=
  i <- get_self ;; ret (_tables i).

(** The object behind [self._tables]; on None every method call on it
    is an AttributeError. *)
Definition the_tables : M TableDict :=
  i <- get_self ;;
  match _tables i with
  | Some t => ret t
  | None => raise AttributeError
  end.

(** *** The operations of TableDict (bolo/data_utils.py), on the object
    [self._tables] refers to *)

(** Modelled from the spec: [TableDict()], the collection without a table. *)
Definition TableDict_new : TableDict := ODict.empty.

(** Modelled from the spec: [add_datatable(name, table)], insertion. *)
Definition add_datatable (name : string) (table : Table) : M unit :=
  t <- the_tables ;;
  set_tables (Some (ODict.set name table t)).

(** Modelled from the spec: [pop_table(name)], lookup and removal. *)
Definition pop_table (name : string) : M Table :=
  t <- the_tables ;;
  match ODict.pop name t with
  | Some (table, t') => set_tables (Some t') ;; ret table
  | None => raise KeyError
  end.

(** Modelled from the spec: [keys()], the names in order. *)
Definition tables_keys : M (list string) :=
  t <- the_tables ;; ret (ODict.keys t).

(** Modelled from the spec: [save_datatables(path)], the serialisation of
    the whole collection; only the call is recorded. *)
Definition save_datatables (filename : string) : M unit :=
  t <- the_tables ;; emit (Save_datatables filename t).

(** Modelled from the spec: the truth value of a TableDict. The spec
    gives the collection insertion, pop, enumeration of keys and
    serialisation, and no length or truth value of its own; it makes
    [write_tables] a no-op when [_tables] is unset and has it delegate
    otherwise. So a collection, with or without tables, counts as true. *)
Definition TableDict_bool (t : TableDict) : bool := true.

(** Modelled from the spec: the table-stack primitive ([vstack] of
    astropy.table) concatenates a sequence of tables into one, and raises
    on a sequence of no table. *)
Definition vstack (tables : list Table) : M Table :=
  emit (Vstack tables) ;;
  match tables with
  | [] => raise ValueError
  | _ :: _ => ret (List.concat tables)
  end.

(** Modelled from the spec: [Sensitivity(channel)] (bolo/sensitivity.py),
    the result object made from one channel. *)
Definition Sensitivity_new (channel : Channel) : M Sensitivity :=
  emit (Sensitivity_init channel) ;;
  ret {| sns_channel := channel |}.

(** Modelled from the spec: [Sensitivity.make_tables(name_prefix,
    table_collection, save_summary, save_sim)] (bolo/sensitivity.py). It
    populates the collection it is given, here always the object
    [self._tables], under names prefixed by [base_name]: a summary table
    when [save_summary], a per-sample table when [save_sim]. The summary
    name carries the marker the Instrument scans for; the spec does not
    name the per-sample table, [sims_suffix] stands for its suffix. *)
Definition Sensitivity_make_tables (sns : Sensitivity) (base_name : string)
    (save_summary save_sim : bool) : M unit :=
  emit (Sns_make_tables sns base_name save_summary save_sim) ;;
  (if save_summary
   then add_datatable (base_name ++ "_summary") (summary_rows (sns_channel sns))
   else ret tt) ;;
  (if save_sim
   then add_datatable (base_name ++ sims_suffix) (sims_rows (sns_channel sns))
   else ret tt).

(** ** class Instrument *)

(** [def eval_sky(self, universe, nsamples=0, freq_resol=None)];
    each camera of [self.cameras.values()] is taken with its name. *)
Definition eval_sky (universe : Universe) (nsamples : Z)
    (freq_resol : FreqResol) : M unit :=
  emit (Universe_sample universe nsamples) ;;
  emit (ObsEffic_sample nsamples) ;;
  i <- get_self ;;
  for_ (ODict.items (cameras i)) (fun '(camera, _) =>
    emit (Camera_eval_sky camera universe freq_resol)).

(** [def eval_instrument(self, nsamples=0, freq_resol=None)] *)
Definition eval_instrument (nsamples : Z) (freq_resol : FreqResol) : M unit :=
  i <- get_self ;;
  for_ (ODict.items (cameras i)) (fun '(camera, _) =>
    emit (Camera_sample camera nsamples) ;;
    emit (Camera_eval_optical_chains camera nsamples freq_resol) ;;
    emit (Camera_eval_det_response camera nsamples freq_resol)).

(** [self._sns_dict[full_name] = sns] *)
Definition sns_dict_setitem (full_name : string) (sns : Sensitivity) : M unit :=
  i <- get_self ;;
  match _sns_dict i with
  | Some d => set_sns_dict (Some (ODict.set full_name sns d))
  | None => raise TypeError
  end.

(** [def eval_sensitivities(self)] *)
Definition eval_sensitivities : M unit :=
  set_sns_dict (Some ODict.empty) ;;
  i <- get_self ;;
  for_ (ODict.items (cameras i)) (fun '(cam_name, camera) =>
    for_ (ODict.items (channels camera)) (fun '(chan_name, channel) =>
      let full_name := cam_name ++ chan_name in
      sns <- Sensitivity_new channel ;;
      sns_dict_setitem full_name sns)).

(** [self._sns_dict.items()] *)
Definition sns_dict_items : M (list (string * Sensitivity)) :=
  i <- get_self ;;
  match _sns_dict i with
  | Some d => ret (ODict.items d)
  | None => raise AttributeError
  end.

(** The loop of [make_tables] over the Sensitivity objects. *)
Definition make_tables_loop (basename : string) (save_summary save_sim : bool)
    (d : list (string * Sensitivity)) : M unit :=
  for_ d (fun '(key, val) =>
    Sensitivity_make_tables val (basename ++ key) save_summary save_sim).

(** [key.find('_summary') > 0] *)
Definition is_sum_key (key : string) : bool :=
  (0 <? PyStr.find key "_summary")%Z.

(** [def make_tables(self, basename="", save_summary=True, save_sim=True)] *)
Definition make_tables (basename : string) (save_summary save_sim : bool)
    : M (option TableDict) :=
  set_tables (Some TableDict_new) ;;
  d <- sns_dict_items ;;
  make_tables_loop basename save_summary save_sim d ;;
  if negb save_summary then get_tables
  else
    keys <- tables_keys ;;
    let sum_keys := filter is_sum_key keys in
    popped <- comprehension sum_keys pop_table ;;
    sum_table <- vstack popped ;;
    add_datatable (basename ++ "summary") sum_table ;;
    get_tables.

(** [bool(self._tables)]: None is false. *)
Definition tables_truthy (v : option TableDict) : bool :=
  match v with
  | None => false
  | Some t => TableDict_bool t
  end.

(** [def write_tables(self, filename)] *)
Definition write_tables (filename : string) : M unit :=
  i <- get_self ;;
  if tables_truthy (_tables i) then save_datatables filename else ret tt.

(** [def run(self, universe, sim_cfg, basename="")] *)
Definition run (universe : Universe) (sim_cfg : SimConfig)
    (basename : string) : M unit :=
  eval_sky universe (nsky_sim sim_cfg) (freq_resol sim_cfg) ;;
  eval_instrument (ndet_sim sim_cfg) (freq_resol sim_cfg) ;;
  eval_sensitivities ;;
  let save_summary0 := save_summary sim_cfg in
  let save_summary1 :=
    if (Z.max (nsky_sim sim_cfg) 1 * Z.max (ndet_sim sim_cfg) 1 =? 1)%Z
    then false else save_summary0 in
  make_tables basename save_summary1 (save_sim sim_cfg) ;;
  ret tt.

(** What [print_summary] puts on the stream: the texts it writes itself
    and, for what a Sensitivity prints there, the call. *)
Inductive stream_op : Type :=
| Stream_write (text : string)
| Sns_print_summary (sns : Sensitivity).

(** The line feed of ["\n"]. *)
Definition newline : string := String (Ascii.ascii_of_nat 10) EmptyString.

(** The loop of [print_summary]: [stream] is the content of the stream so
    far, oldest first. *)
Fixpoint print_summary_loop (items : list (string * Sensitivity))
    (stream : list stream_op) : list stream_op :=
  match items with
  | [] => stream
  | (key, val) :: r =>
      let stream := (stream ++ [Stream_write (key ++ " ---------" ++ newline)])%list in
      let stream := (stream ++ [Sns_print_summary val])%list in
      let stream := (stream ++ [Stream_write ("---------" ++ newline)])%list in
      print_summary_loop r stream
  end.

(** [def print_summary(self, stream=sys.stdout)]: the stream is passed in
    and its new content is the result. *)
Definition print_summary (stream : list stream_op) : M (list stream_op) :=
  d <- sns_dict_items ;;
  ret (print_summary_loop d stream).

(** ** Vocabulary of the statements

    Pure functions that say what a method does to the trace, to
    [_sns_dict] and to [_tables]; the theorems relate the methods to them. *)

(** The state after the calls [cs]. *)
Definition log (cs : list call) (s : State) : State :=
  {| self := self s; trace := (trace s ++ cs)%list |}.

(** The state with [self._tables = v], with [self._sns_dict = v]. *)
Definition with_tables (v : option TableDict) (s : State) : State :=
  {| self := {| cameras := cameras (self s); _tables := v;
                _sns_dict := _sns_dict (self s) |};
     trace := trace s |}.

Definition with_sns_dict (v : option (odict Sensitivity)) (s : State) : State :=
  {| self := {| cameras := cameras (self s); _tables := _tables (self s);
                _sns_dict := v |};
     trace := trace s |}.

(** The calls of the sky stage, for the cameras named [cams]. *)
Definition sky_calls (u : Universe) (n : Z) (fr : FreqResol)
    (cams : list string) : list call :=
  Universe_sample u n :: ObsEffic_sample n ::
  map (fun cam => Camera_eval_sky cam u fr) cams.

(** The calls of the instrument stage on one camera, and on all. *)
Definition camera_calls (n : Z) (fr : FreqResol) (cam : string) : list call :=
  [Camera_sample cam n;
   Camera_eval_optical_chains cam n fr;
   Camera_eval_det_response cam n fr].

Definition instrument_calls (n : Z) (fr : FreqResol)
    (cams : list string) : list call :=
  flat_map (camera_calls n fr) cams.

(** The camera a call is made on. *)
Definition call_camera (c : call) : option string :=
  match c with
  | Camera_eval_sky cam _ _ | Camera_sample cam _
  | Camera_eval_optical_chains cam _ _ | Camera_eval_det_response cam _ _ =>
      Some cam
  | _ => None
  end.

Definition calls_on (cam : string) (cs : list call) : list call :=
  filter (fun c => match call_camera c with
                   | Some k => String.eqb k cam
                   | None => false
                   end) cs.

(** The (camera, channel) pairs in iteration order, each under the key
    [camera_name + channel_name]. *)
Definition sns_pairs (cams : odict Camera) : list (string * Channel) :=
  flat_map (fun '(cam_name, camera) =>
              map (fun '(chan_name, channel) => (cam_name ++ chan_name, channel))
                  (ODict.items (channels camera)))
           (ODict.items cams).

(** Storing one Sensitivity per pair, in order, into [d]. *)
Definition collect (pairs : list (string * Channel))
    (d : odict Sensitivity) : odict Sensitivity :=
  fold_left (fun d p => ODict.set (fst p) {| sns_channel := snd p |} d) pairs d.

Definition sns_calls (pairs : list (string * Channel)) : list call :=
  map (fun p => Sensitivity_init (snd p)) pairs.

(** What one Sensitivity, and the loop over all, write into a collection. *)
Definition sns_tables (sns : Sensitivity) (base_name : string)
    (save_summary save_sim : bool) (t : TableDict) : TableDict :=
  let t1 := if save_summary
            then ODict.set (base_name ++ "_summary")
                           (summary_rows (sns_channel sns)) t
            else t in
  if save_sim
  then ODict.set (base_name ++ sims_suffix) (sims_rows (sns_channel sns)) t1
  else t1.

Definition loop_tables (basename : string) (save_summary save_sim : bool)
    (d : list (string * Sensitivity)) (t : TableDict) : TableDict :=
  fold_left (fun t e => sns_tables (snd e) (basename ++ fst e)
                                   save_summary save_sim t) d t.

Definition loop_calls (basename : string) (save_summary save_sim : bool)
    (d : list (string * Sensitivity)) : list call :=
  map (fun e => Sns_make_tables (snd e) (basename ++ fst e)
                                        save_summary save_sim) d.

(** The entries [make_tables] pops, and those it leaves. *)
Definition sum_entries (t : TableDict) : TableDict :=
  filter (fun e => is_sum_key (fst e)) t.

Definition rest_entries (t : TableDict) : TableDict :=
  filter (fun e => negb (is_sum_key (fst e))) t.

(** The key holds the summary marker. *)
Definition has_marker (key : string) : Prop := PyStr.contains key "_summary".

(** The key of a per-sample table written for some entry of [d]. *)
Definition is_sims_name (basename : string) (d : odict Sensitivity)
    (name : string) : Prop :=
  exists key, In key (ODict.keys d) /\ name = (basename ++ key) ++ sims_suffix.

(** The calls of the tabulation stage. *)
Definition is_table_call (c : call) : Prop :=
  match c with
  | Sns_make_tables _ _ _ _ | Vstack _ => True
  | _ => False
  end.

(** The entry [eval_sensitivities] stores for a pair. *)
Definition sns_entry (p : string * Channel) : string * Sensitivity :=
  (fst p, {| sns_channel := snd p |}).

(** [make_tables(...)] as [run] calls it: the returned collection is dropped. *)
Definition discard {A} (r : outcome A * State) : outcome unit * State :=
  match r with
  | (Ret _, s) => (Ret tt, s)
  | (Raise e, s) => (Raise e, s)
  end.

(** The keys of a list, each at the place of its first occurrence. *)
Fixpoint first_keys (ks : list string) : list string :=
  match ks with
  | [] => []
  | k :: r => k :: filter (fun k' => negb (String.eqb k k')) (first_keys r)
  end.

(** What [print_summary] writes for one entry. *)
Definition summary_block (e : string * Sensitivity) : list stream_op :=
  [Stream_write (fst e ++ " ---------" ++ newline);
   Sns_print_summary (snd e);
   Stream_write ("---------" ++ newline)].

(** The call that serialises. *)
Definition is_save_call (c : call) : Prop :=
  match c with
  | Save_datatables _ _ => True
  | _ => False
  end.

(** The names of the cameras are prefix-free: none begins with another. *)
Definition prefix_free (names : list string) : Prop :=
  forall a b, In a names -> In b names -> a <> b -> ~ PyStr.startswith a b.

End Bolo.

(** ** Concrete instruments *)

Module Example.

(** Channels are numbered; a row tells its channel and whether it is a
    summary row. *)
#[export] Instance rows : SensitivityRows nat (nat * bool) := {
  summary_rows ch := [(ch, true)];
  sims_rows ch := [(ch, false); (ch, false)];
  sims_suffix := "_sims"
}.

Definition St : Type := @State unit (option Z) nat (nat * bool).

Definition fresh (cams : odict (@Camera nat)) : St :=
  {| self := __init__ cams; trace := [] |}.

(** The same Instrument once its sensitivities are evaluated. *)
Definition evaluated (cams : odict (@Camera nat)) : St :=
  with_sns_dict (Some (collect (sns_pairs cams) [])) (fresh cams).

(** Two cameras of two channels each. *)
Definition two_by_two : odict (@Camera nat) :=
  [("cam1", {| channels := [("ch1", 1%nat); ("ch2", 2%nat)] |});
   ("cam2", {| channels := [("ch1", 3%nat); ("ch2", 4%nat)] |})].

(** Two cameras whose channels get the same key, "abc". *)
Definition colliding : odict (@Camera nat) :=
  [("a", {| channels := [("bc", 1%nat)] |});
   ("ab", {| channels := [("c", 2%nat)] |})].

(** A configuration of 5 sky draws and 1 detector draw, summary on. *)
Definition mc_cfg : @SimConfig (option Z) :=
  {| nsky_sim := 5; ndet_sim := 1; freq_resol := None;
     save_summary := true; save_sim := true |}.

(** The deterministic configuration, summary on. *)
Definition det_cfg : @SimConfig (option Z) :=
  {| nsky_sim := 0; ndet_sim := 0; freq_resol := None;
     save_summary := true; save_sim := true |}.

End Example.

(** * Properties *)

(** ** [str.find] against containment and prefix *)

Module PyStrFacts.
Import PyStr.

Lemma prefix_cons (a b : Ascii.ascii) (sub s : string) :
  String.prefix (String a sub) (String b s) =
  if Ascii.ascii_dec a b then String.prefix sub s else false.
Proof. reflexivity. Qed.

Lemma prefix_startswith (sub s : string) :
  String.prefix sub s = true <-> startswith s sub.
Proof.
  unfold startswith. revert s.
  induction sub as [|a sub IH]; intros s.
  - split; [intros _; now exists s | intros _; now destruct s].
  - destruct s as [|b s].
    + split; [discriminate | intros [post H]; discriminate].
    + rewrite prefix_cons.
      destruct (Ascii.ascii_dec a b) as [->|Hab].
      * rewrite IH. split; intros [post H]; exists post.
        -- simpl. now rewrite H.
        -- now injection H.
      * split; [discriminate | intros [post H]].
        injection H as H1 H2. now elim Hab.
Qed.

Lemma contains_cases (sub s : string) :
  contains s sub <->
  startswith s sub \/ exists c s', s = String c s' /\ contains s' sub.
Proof.
  unfold contains, startswith. split.
  - intros [[|c pre] [post H]].
    + left. now exists post.
    + right. exists c, (pre ++ sub ++ post). split; [exact H|].
      now exists pre, post.
  - intros [[post H] | (c & s' & -> & pre & post & ->)].
    + now exists "", post.
    + now exists (String c pre), post.
Qed.

Lemma find_from_nil (sub : string) (i : Z) :
  find_from sub "" i = if String.prefix sub "" then i else -1.
Proof. reflexivity. Qed.

Lemma find_from_cons (sub : string) (c : Ascii.ascii) (s : string) (i : Z) :
  find_from sub (String c s) i =
  if String.prefix sub (String c s) then i else find_from sub s (i + 1).
Proof. reflexivity. Qed.

Lemma find_from_range (sub s : string) (i : Z) :
  find_from sub s i = -1 \/ i <= find_from sub s i.
Proof.
  revert i. induction s as [|c s IH]; intros i.
  - rewrite find_from_nil. destruct (String.prefix sub ""); lia.
  - rewrite find_from_cons.
    destruct (String.prefix sub (String c s)); [lia|].
    destruct (IH (i + 1)); lia.
Qed.

Lemma find_from_here (sub s : string) (i : Z) :
  0 <= i -> (find_from sub s i = i <-> startswith s sub).
Proof.
  intros Hi. rewrite <- prefix_startswith.
  destruct s as [|c s].
  - rewrite find_from_nil.
    destruct (String.prefix sub ""); split; try reflexivity; try lia; discriminate.
  - rewrite find_from_cons.
    destruct (String.prefix sub (String c s)); split;
      try reflexivity; try discriminate.
    intros H. destruct (find_from_range sub s (i + 1)); lia.
Qed.

Lemma find_from_found (sub s : string) (i : Z) :
  0 <= i -> (i <= find_from sub s i <-> contains s sub).
Proof.
  revert i. induction s as [|c s IH]; intros i Hi.
  - rewrite contains_cases, <- prefix_startswith, find_from_nil.
    destruct (String.prefix sub ""); split; try lia; auto.
    intros [H | (c & s' & H & _)]; discriminate.
  - rewrite contains_cases, <- prefix_startswith, find_from_cons.
    destruct (String.prefix sub (String c s)).
    + split; [auto | lia].
    + split.
      * intros H. right. exists c, s. split; [reflexivity|].
        apply (IH (i + 1)); [lia|].
        destruct (find_from_range sub s (i + 1)); lia.
      * intros [H | (c' & s' & H & Hc)]; [discriminate|].
        injection H as -> ->.
        apply (IH (i + 1)) in Hc; lia.
Qed.

(** [s.find(sub) >= 0] says [sub in s]. *)
Lemma find_nonneg (s sub : string) : 0 <= find s sub <-> contains s sub.
Proof. apply find_from_found. lia. Qed.

(** [s.find(sub) == 0] says [s.startswith(sub)]. *)
Lemma find_zero (s sub : string) : find s sub = 0 <-> startswith s sub.
Proof. apply find_from_here. lia. Qed.

(** [s.find(sub) > 0]: [sub] occurs in [s], and not at its start. *)
Lemma find_pos (s sub : string) :
  0 < find s sub <-> contains s sub /\ ~ startswith s sub.
Proof.
  rewrite <- find_nonneg, <- find_zero. lia.
Qed.

End PyStrFacts.

(** ** Ordered dictionaries *)

Module ODictFacts.
Section Facts.
Context {V : Type}.
Implicit Types (d : odict V) (k : string) (v : V).

Lemma keys_set k v d k' :
  In k' (ODict.keys (ODict.set k v d)) <-> k' = k \/ In k' (ODict.keys d).
Proof.
  induction d as [|[k0 v0] d IH]; simpl.
  - intuition auto.
  - destruct (String.eqb_spec k0 k) as [->|Hne]; simpl.
    + intuition auto.
    + rewrite IH. intuition auto.
Qed.

Lemma set_fresh k v d :
  ~ In k (ODict.keys d) -> ODict.set k v d = (d ++ [(k, v)])%list.
Proof.
  induction d as [|[k0 v0] d IH]; simpl; intros Hk; [reflexivity|].
  destruct (String.eqb_spec k0 k) as [->|Hne].
  - elim Hk. now left.
  - rewrite IH; auto.
Qed.

Lemma set_NoDup k v d :
  NoDup (ODict.keys d) -> NoDup (ODict.keys (ODict.set k v d)).
Proof.
  induction d as [|[k0 v0] d IH]; simpl; intros Hd.
  - constructor; [intros [] | constructor].
  - inversion Hd as [|? ? Hk0 Hd']; subst.
    destruct (String.eqb_spec k0 k) as [->|Hne]; simpl.
    + now constructor.
    + constructor; [|auto].
      rewrite keys_set. intros [->|H]; auto.
Qed.

Lemma get_set_same k v d : ODict.get k (ODict.set k v d) = Some v.
Proof.
  induction d as [|[k0 v0] d IH]; simpl.
  - now rewrite String.eqb_refl.
  - destruct (String.eqb_spec k0 k) as [->|Hne]; simpl.
    + now rewrite String.eqb_refl.
    + destruct (String.eqb_spec k0 k); [contradiction | exact IH].
Qed.

Lemma get_set_other k k' v d :
  k' <> k -> ODict.get k' (ODict.set k v d) = ODict.get k' d.
Proof.
  intros Hne. induction d as [|[k0 v0] d IH]; simpl.
  - destruct (String.eqb_spec k k'); [now subst | reflexivity].
  - destruct (String.eqb_spec k0 k) as [->|Hne0]; simpl.
    + destruct (String.eqb_spec k k'); [now subst | reflexivity].
    + now rewrite IH.
Qed.

(** Popping a key whose first entry comes after [pre]. *)
Lemma pop_first k v (pre r : odict V) :
  ~ In k (ODict.keys pre) ->
  ODict.pop k (pre ++ (k, v) :: r)%list = Some (v, (pre ++ r)%list).
Proof.
  induction pre as [|[k0 v0] pre IH]; simpl; intros Hk.
  - now rewrite String.eqb_refl.
  - destruct (String.eqb_spec k0 k) as [->|Hne].
    + elim Hk. now left.
    + rewrite IH; auto.
Qed.

Lemma keys_filter (p : string -> bool) d :
  ODict.keys (filter (fun e => p (fst e)) d) = filter p (ODict.keys d).
Proof.
  induction d as [|[k0 v0] d IH]; simpl; [reflexivity|].
  destruct (p k0); simpl; now rewrite IH.
Qed.

End Facts.
End ODictFacts.

(** ** The methods of the Instrument *)

Section Properties.

Context {Universe FreqResol Channel Row : Type}.
Context {rows : SensitivityRows Channel Row}.

Local Abbreviation State := (@State Universe FreqResol Channel Row).
Local Abbreviation call := (@call Universe FreqResol Channel Row).
Local Abbreviation M := (@M Universe FreqResol Channel Row).

Implicit Types (s : State) (cs : list call).

Lemma log_nil s : log [] s = s.
Proof. destruct s. unfold log. simpl. now rewrite app_nil_r. Qed.

Lemma log_log cs cs' s : log cs' (log cs s) = log (cs ++ cs')%list s.
Proof. unfold log. simpl. now rewrite app_assoc. Qed.

Lemma bind_ret_eq {A B} (m : M A) (k : A -> M B) s (a : A) s' :
  m s = (Ret a, s') -> bind m k s = k a s'.
Proof. unfold bind. now intros ->. Qed.

Lemma bind_raise_eq {A B} (m : M A) (k : A -> M B) s (e : exn) s' :
  m s = (Raise e, s') -> bind m k s = (Raise e, s').
Proof. unfold bind. now intros ->. Qed.

(** A loop whose body only makes calls. *)
Lemma for_calls {A} (xs : list A) (body : A -> M unit) (f : A -> list call) :
  (forall x s, body x s = (Ret tt, log (f x) s)) ->
  forall s, for_ xs body s = (Ret tt, log (flat_map f xs) s).
Proof.
  intros Hbody. induction xs as [|x xs IH]; intros s; simpl.
  - unfold ret. now rewrite log_nil.
  - unfold bind. rewrite Hbody, IH, log_log. reflexivity.
Qed.

Lemma flat_map_single {A B} (f : A -> B) (xs : list A) :
  flat_map (fun x => [f x]) xs = map f xs.
Proof. induction xs; simpl; congruence. Qed.

Lemma flat_map_map {A B C} (g : A -> B) (f : B -> list C) (xs : list A) :
  flat_map f (map g xs) = flat_map (fun x => f (g x)) xs.
Proof. induction xs; simpl; congruence. Qed.

Lemma eval_sky_spec (u : Universe) (n : Z) (fr : FreqResol) s :
  eval_sky u n fr s =
  (Ret tt, log (sky_calls u n fr (ODict.keys (cameras (self s)))) s).
Proof.
  unfold eval_sky, bind at 1 2 3, emit, get_self. cbn [self trace].
  rewrite for_calls with (f := fun e => [Camera_eval_sky (fst e) u fr]).
  - unfold log, sky_calls, ODict.items, ODict.keys. cbn [self trace].
    rewrite flat_map_single, map_map, <- !app_assoc. reflexivity.
  - intros [cam c] s'. reflexivity.
Qed.

Lemma eval_instrument_spec (n : Z) (fr : FreqResol) s :
  eval_instrument n fr s =
  (Ret tt, log (instrument_calls n fr (ODict.keys (cameras (self s)))) s).
Proof.
  unfold eval_instrument, bind at 1, get_self.
  rewrite for_calls with (f := fun e => camera_calls n fr (fst e)).
  - unfold instrument_calls, ODict.items, ODict.keys.
    now rewrite flat_map_map.
  - intros [cam c] s'. unfold bind, emit, log, camera_calls. cbn [self trace].
    now rewrite <- !app_assoc.
Qed.

(** *** [eval_sensitivities] *)

Local Abbreviation mk c t sd tr :=
  {| self := {| cameras := c; _tables := t; _sns_dict := sd |}; trace := tr |}.

Lemma collect_app (ps ps' : list (string * Channel)) (d : odict Sensitivity) :
  collect (ps ++ ps')%list d = collect ps' (collect ps d).
Proof. unfold collect. apply fold_left_app. Qed.

Lemma channels_loop cam_name (chans : odict Channel) c t d tr :
  for_ (ODict.items chans)
       (fun '(chan_name, channel) =>
          let full_name := cam_name ++ chan_name in
          bind (Sensitivity_new channel)
               (fun sns => sns_dict_setitem full_name sns))
       (mk c t (Some d) tr : State) =
  let ps := map (fun '(chan_name, channel) => (cam_name ++ chan_name, channel))
                chans in
  (Ret tt, mk c t (Some (collect ps d)) (tr ++ sns_calls ps)%list).
Proof.
  revert d tr. induction chans as [|[chan_name channel] chans IH]; intros d tr.
  - simpl. unfold ret. now rewrite app_nil_r.
  - simpl. unfold bind at 1. simpl. unfold ODict.items in IH. rewrite IH.
    simpl. now rewrite <- app_assoc.
Qed.

Lemma cameras_loop (cams : odict Camera) c t d tr :
  for_ (ODict.items cams)
       (fun '(cam_name, camera) =>
          for_ (ODict.items (channels camera))
               (fun '(chan_name, channel) =>
                  let full_name := cam_name ++ chan_name in
                  bind (Sensitivity_new channel)
                       (fun sns => sns_dict_setitem full_name sns)))
       (mk c t (Some d) tr : State) =
  (Ret tt, mk c t (Some (collect (sns_pairs cams) d))
              (tr ++ sns_calls (sns_pairs cams))%list).
Proof.
  revert d tr. induction cams as [|[cam_name camera] cams IH]; intros d tr.
  - simpl. unfold ret. now rewrite app_nil_r.
  - simpl for_. unfold bind at 1. rewrite channels_loop.
    unfold ODict.items in IH |- *. cbv zeta in IH |- *. cbv beta iota.
    rewrite IH.
    unfold sns_pairs. simpl flat_map. fold (sns_pairs cams).
    unfold sns_calls, ODict.items.
    now rewrite collect_app, map_app, app_assoc.
Qed.

Lemma eval_sensitivities_spec s :
  eval_sensitivities s =
  let pairs := sns_pairs (cameras (self s)) in
  (Ret tt, log (sns_calls pairs) (with_sns_dict (Some (collect pairs [])) s)).
Proof.
  destruct s as [[c t sd] tr].
  unfold eval_sensitivities, bind at 1 2, set_sns_dict, bind, get_self, put_self.
  cbn [self trace cameras _tables _sns_dict].
  apply cameras_loop.
Qed.

(** *** [make_tables] *)

Lemma Sensitivity_make_tables_spec (sns : Sensitivity) (base_name : string)
    (ss sim : bool) c (t : TableDict) sd tr :
  Sensitivity_make_tables sns base_name ss sim (mk c (Some t) sd tr : State) =
  (Ret tt, mk c (Some (sns_tables sns base_name ss sim t)) sd
              (tr ++ [Sns_make_tables sns base_name ss sim])%list).
Proof. destruct ss, sim; reflexivity. Qed.

Lemma make_tables_loop_spec (basename : string) (ss sim : bool)
    (d : list (string * Sensitivity)) c (t : TableDict) sd tr :
  make_tables_loop basename ss sim d (mk c (Some t) sd tr : State) =
  (Ret tt, mk c (Some (loop_tables basename ss sim d t)) sd
              (tr ++ loop_calls basename ss sim d)%list).
Proof.
  unfold make_tables_loop. revert t tr.
  induction d as [|[key val] d IH]; intros t tr.
  - simpl. unfold ret. now rewrite app_nil_r.
  - simpl for_. unfold bind at 1. rewrite Sensitivity_make_tables_spec.
    rewrite IH. simpl. now rewrite <- app_assoc.
Qed.

Lemma pop_table_spec (name : string) (t : TableDict) (table : Table)
    (t' : TableDict) c sd tr :
  ODict.pop name t = Some (table, t') ->
  pop_table name (mk c (Some t) sd tr : State) =
  (Ret table, mk c (Some t') sd tr).
Proof.
  intros H. unfold pop_table, bind at 1, the_tables, bind at 1, get_self.
  cbn [self _tables]. unfold ret at 1. rewrite H. reflexivity.
Qed.

(** The pops of [make_tables]: the keys are popped in the order of the
    collection, so each is found behind the entries that stay. *)
Lemma pops_spec (t pre : TableDict) c sd tr :
  (forall k, In k (ODict.keys pre) -> is_sum_key k = false) ->
  comprehension (filter is_sum_key (ODict.keys t)) pop_table
                (mk c (Some (pre ++ t)%list) sd tr : State) =
  (Ret (ODict.values (sum_entries t)),
   mk c (Some (pre ++ rest_entries t)%list) sd tr).
Proof.
  revert pre. induction t as [|[k v] t IH]; intros pre Hpre.
  - reflexivity.
  - unfold sum_entries, rest_entries. simpl.
    destruct (is_sum_key k) eqn:Hk; simpl.
    + erewrite bind_ret_eq.
      2:{ apply pop_table_spec, ODictFacts.pop_first.
          intros Hin. apply Hpre in Hin. congruence. }
      erewrite bind_ret_eq; [reflexivity | now apply IH].
    + specialize (IH (pre ++ [(k, v)])%list).
      rewrite <- !app_assoc in IH. simpl in IH. apply IH.
      intros k' Hin. unfold ODict.keys in Hin.
      rewrite map_app, in_app_iff in Hin. destruct Hin as [Hin|[<-|[]]]; auto.
Qed.

(** Without summary: the collection is what the loop wrote. *)
Lemma make_tables_plain (basename : string) (sim : bool)
    (d : odict Sensitivity) s :
  _sns_dict (self s) = Some d ->
  make_tables basename false sim s =
  let T := loop_tables basename false sim d [] in
  (Ret (Some T), log (loop_calls basename false sim d) (with_tables (Some T) s)).
Proof.
  destruct s as [[c t sd] tr]. simpl. intros ->.
  unfold make_tables.
  erewrite bind_ret_eq; [|reflexivity].
  erewrite bind_ret_eq; [|reflexivity].
  erewrite bind_ret_eq; [|apply make_tables_loop_spec].
  reflexivity.
Qed.

(** With summary: what is popped, stacked and put back, or the error. *)
Lemma make_tables_summary (basename : string) (sim : bool)
    (d : odict Sensitivity) s :
  _sns_dict (self s) = Some d ->
  make_tables basename true sim s =
  let T := loop_tables basename true sim d [] in
  let popped := ODict.values (sum_entries T) in
  let s' := log (loop_calls basename true sim d ++ [Vstack popped])%list in
  match popped with
  | [] => (Raise ValueError, s' (with_tables (Some (rest_entries T)) s))
  | _ :: _ =>
      let R := ODict.set (basename ++ "summary") (List.concat popped)
                         (rest_entries T) in
      (Ret (Some R), s' (with_tables (Some R) s))
  end.
Proof.
  destruct s as [[c t sd] tr]. simpl. intros ->.
  unfold make_tables.
  erewrite bind_ret_eq; [|reflexivity].
  erewrite bind_ret_eq; [|reflexivity].
  erewrite bind_ret_eq; [|apply make_tables_loop_spec].
  cbn [negb].
  erewrite bind_ret_eq; [|reflexivity].
  erewrite bind_ret_eq.
  2:{ apply (pops_spec (loop_tables basename true sim d []) []).
      intros k []. }
  destruct (ODict.values (sum_entries (loop_tables basename true sim d [])))
    as [|p ps] eqn:Hp.
  - erewrite bind_raise_eq; [|reflexivity].
    unfold log, with_tables. simpl. now rewrite <- app_assoc.
  - erewrite bind_ret_eq; [|reflexivity].
    erewrite bind_ret_eq; [|reflexivity].
    unfold log, with_tables. simpl. now rewrite <- app_assoc.
Qed.

(** *** The dictionary [eval_sensitivities] builds *)

Lemma collect_keys (ps : list (string * Channel)) (d : odict Sensitivity) k :
  In k (ODict.keys (collect ps d)) <-> In k (ODict.keys d) \/ In k (map fst ps).
Proof.
  revert d. induction ps as [|[k0 ch0] ps IH]; intros d; simpl.
  - intuition auto.
  - unfold collect in *. simpl. rewrite IH, ODictFacts.keys_set.
    intuition auto.
Qed.

Lemma collect_NoDup (ps : list (string * Channel)) (d : odict Sensitivity) :
  NoDup (ODict.keys d) -> NoDup (ODict.keys (collect ps d)).
Proof.
  revert d. induction ps as [|[k0 ch0] ps IH]; intros d Hd; [exact Hd|].
  apply IH. now apply ODictFacts.set_NoDup.
Qed.

(** Keys that are pairwise distinct and new: one entry per pair, in order. *)
Lemma collect_distinct (ps : list (string * Channel)) (d : odict Sensitivity) :
  NoDup (map fst ps) ->
  (forall k, In k (map fst ps) -> ~ In k (ODict.keys d)) ->
  collect ps d = (d ++ map sns_entry ps)%list.
Proof.
  revert d. induction ps as [|[k0 ch0] ps IH]; intros d Hnd Hfresh.
  - simpl. now rewrite app_nil_r.
  - inversion Hnd as [|? ? Hk0 Hnd']; subst.
    change (collect ((k0, ch0) :: ps) d)
      with (collect ps (ODict.set k0 {| sns_channel := ch0 |} d)).
    rewrite IH; [|exact Hnd'|].
    + rewrite ODictFacts.set_fresh by (apply Hfresh; now left).
      now rewrite <- app_assoc.
    + intros k Hk. rewrite ODictFacts.keys_set. intros [->|Hin].
      * contradiction.
      * apply (Hfresh k); [now right | exact Hin].
Qed.

Lemma collect_get_other (ps : list (string * Channel)) (d : odict Sensitivity) k :
  ~ In k (map fst ps) -> ODict.get k (collect ps d) = ODict.get k d.
Proof.
  revert d. induction ps as [|[k0 ch0] ps IH]; intros d Hk; [reflexivity|].
  change (collect ((k0, ch0) :: ps) d)
    with (collect ps (ODict.set k0 {| sns_channel := ch0 |} d)).
  rewrite IH by (intros H; apply Hk; now right).
  apply ODictFacts.get_set_other. intros ->. apply Hk. now left.
Qed.

(** The last pair under a key is the one whose Sensitivity is kept. *)
Lemma collect_get_last (l1 l3 : list (string * Channel)) k (ch : Channel)
    (d : odict Sensitivity) :
  ~ In k (map fst l3) ->
  ODict.get k (collect (l1 ++ (k, ch) :: l3)%list d) =
  Some {| sns_channel := ch |}.
Proof.
  intros Hk. rewrite collect_app.
  change (collect ((k, ch) :: l3) (collect l1 d))
    with (collect l3 (ODict.set k {| sns_channel := ch |} (collect l1 d))).
  rewrite collect_get_other by exact Hk.
  apply ODictFacts.get_set_same.
Qed.

Lemma collect_length (ps : list (string * Channel)) :
  (List.length (collect ps []) <= List.length ps)%nat.
Proof.
  rewrite <- (length_map fst (collect ps [])), <- (length_map fst ps).
  apply NoDup_incl_length.
  - apply collect_NoDup. constructor.
  - intros k Hk. apply collect_keys in Hk. destruct Hk as [[]|Hk]. exact Hk.
Qed.

(** Two pairs under one key: fewer entries than pairs. *)
Lemma collect_length_collision (ps : list (string * Channel)) :
  ~ NoDup (map fst ps) -> (List.length (collect ps []) < List.length ps)%nat.
Proof.
  intros Hdup.
  destruct (Nat.lt_ge_cases (List.length (collect ps [])) (List.length ps)) as [H|H];
    [exact H|].
  elim Hdup.
  apply (@NoDup_incl_NoDup _ (ODict.keys (collect ps [])) (map fst ps)).
  - apply collect_NoDup. constructor.
  - unfold ODict.keys. now rewrite !length_map.
  - intros k Hk. apply collect_keys in Hk. destruct Hk as [[]|Hk]. exact Hk.
Qed.

(** *** The collection the loop of [make_tables] writes *)

Lemma sns_tables_NoDup (sns : Sensitivity) (base_name : string) (ss sim : bool)
    (t : TableDict) :
  NoDup (ODict.keys t) -> NoDup (ODict.keys (sns_tables sns base_name ss sim t)).
Proof.
  intros Ht. unfold sns_tables.
  destruct ss, sim; auto using ODictFacts.set_NoDup.
Qed.

Lemma loop_tables_NoDup (basename : string) (ss sim : bool)
    (d : list (string * Sensitivity)) (t : TableDict) :
  NoDup (ODict.keys t) -> NoDup (ODict.keys (loop_tables basename ss sim d t)).
Proof.
  revert t. induction d as [|[key val] d IH]; intros t Ht; [exact Ht|].
  apply IH. now apply sns_tables_NoDup.
Qed.

(** Without summary, every table is the per-sample table of some entry. *)
Lemma loop_tables_plain_keys (basename : string) (sim : bool)
    (d0 : odict (@Sensitivity Channel)) (d : list (string * Sensitivity))
    (t : TableDict) :
  incl (ODict.keys d) (ODict.keys d0) ->
  (forall name, In name (ODict.keys t) -> is_sims_name basename d0 name) ->
  forall name, In name (ODict.keys (loop_tables basename false sim d t)) ->
               is_sims_name basename d0 name.
Proof.
  revert t. induction d as [|[key val] d IH]; intros t Hd Ht; [exact Ht|].
  apply IH.
  - intros k Hk. apply Hd. now right.
  - intros name. unfold sns_tables. simpl. destruct sim; [|apply Ht].
    rewrite ODictFacts.keys_set. intros [->|Hin]; [|now apply Ht].
    exists key. split; [apply Hd; now left | reflexivity].
Qed.

(** *** [write_tables] *)

Lemma write_tables_falsy (filename : string) s :
  tables_truthy (_tables (self s)) = false ->
  write_tables filename s = (Ret tt, s).
Proof.
  intros H. unfold write_tables, bind, get_self. now rewrite H.
Qed.

(** A collection in [_tables], whatever it holds, is serialised. *)
Lemma write_tables_set (filename : string) (t : TableDict) s :
  _tables (self s) = Some t ->
  write_tables filename s = (Ret tt, log [Save_datatables filename t] s).
Proof.
  intros H. unfold write_tables, bind at 1, get_self. rewrite H. simpl.
  unfold save_datatables, bind at 1, the_tables, bind at 1, get_self.
  now rewrite H.
Qed.

Lemma write_tables_nonempty (filename : string) (t : TableDict) s :
  _tables (self s) = Some t -> t <> [] ->
  write_tables filename s = (Ret tt, log [Save_datatables filename t] s).
Proof. intros H _. now apply write_tables_set. Qed.

(** *** The calls on one camera *)

Lemma calls_on_app (cam : string) cs cs' :
  calls_on cam (cs ++ cs')%list = (calls_on cam cs ++ calls_on cam cs')%list.
Proof. apply filter_app. Qed.

Lemma calls_on_camera_calls (n : Z) (fr : FreqResol) (cam cam' : string) :
  calls_on cam (camera_calls n fr cam' : list call) =
  if String.eqb cam' cam then camera_calls n fr cam' else [].
Proof. unfold calls_on, camera_calls. simpl. now destruct (String.eqb cam' cam). Qed.

Lemma calls_on_instrument_calls (n : Z) (fr : FreqResol) (cam : string)
    (cams : list string) :
  NoDup cams -> In cam cams ->
  calls_on cam (instrument_calls n fr cams : list call) = camera_calls n fr cam.
Proof.
  unfold instrument_calls.
  induction cams as [|cam' cams IH]; intros Hnd Hin; [destruct Hin|].
  inversion Hnd as [|? ? Hfresh Hnd']; subst.
  cbn [flat_map]. rewrite calls_on_app, calls_on_camera_calls.
  destruct (String.eqb_spec cam' cam) as [->|Hne].
  - assert (Hrest : calls_on cam (flat_map (camera_calls n fr) cams : list call)
                    = []).
    { clear IH Hnd Hnd' Hin. induction cams as [|c cams IHc]; [reflexivity|].
      cbn [flat_map]. rewrite calls_on_app, calls_on_camera_calls.
      destruct (String.eqb_spec c cam) as [->|Hc].
      - elim Hfresh. now left.
      - apply IHc. intros H. apply Hfresh. now right. }
    rewrite Hrest. apply app_nil_r.
  - destruct Hin as [->|Hin]; [contradiction|]. now apply IH.
Qed.

(** *** [run] *)

(** The state after the first three stages of [run]. *)
Lemma stages_spec (universe : Universe) (nsky ndet : Z) (fr : FreqResol) s :
  let cams := ODict.keys (cameras (self s)) in
  let pairs := sns_pairs (cameras (self s)) in
  let s1 := log (sky_calls universe nsky fr cams) s in
  let s2 := log (instrument_calls ndet fr cams) s1 in
  let s3 := log (sns_calls pairs) (with_sns_dict (Some (collect pairs [])) s2) in
  eval_sky universe nsky fr s = (Ret tt, s1) /\
  eval_instrument ndet fr s1 = (Ret tt, s2) /\
  eval_sensitivities s2 = (Ret tt, s3).
Proof.
  cbv zeta. split; [apply eval_sky_spec|]. split.
  - exact (eval_instrument_spec ndet fr _).
  - exact (eval_sensitivities_spec _).
Qed.

Lemma bind_discard {A} (m : M A) s :
  bind m (fun _ => ret tt) s = discard (m s).
Proof. unfold bind, discard. now destruct (m s) as [[a|e] s']. Qed.

Lemma run_spec (universe : Universe) (sim_cfg : SimConfig) (basename : string)
    s s1 s2 s3 :
  eval_sky universe (nsky_sim sim_cfg) (freq_resol sim_cfg) s = (Ret tt, s1) ->
  eval_instrument (ndet_sim sim_cfg) (freq_resol sim_cfg) s1 = (Ret tt, s2) ->
  eval_sensitivities s2 = (Ret tt, s3) ->
  run universe sim_cfg basename s =
  discard (make_tables basename
             (if (Z.max (nsky_sim sim_cfg) 1 * Z.max (ndet_sim sim_cfg) 1 =? 1)%Z
              then false else save_summary sim_cfg)
             (save_sim sim_cfg) s3).
Proof.
  intros H1 H2 H3. unfold run.
  rewrite (bind_ret_eq _ _ _ _ _ H1), (bind_ret_eq _ _ _ _ _ H2),
    (bind_ret_eq _ _ _ _ _ H3).
  cbv zeta. apply bind_discard.
Qed.

(** The tabulation stage only adds calls of its own to the trace. *)
Lemma make_tables_trace (basename : string) (ss sim : bool)
    (d : odict Sensitivity) s :
  _sns_dict (self s) = Some d ->
  exists tab,
    trace (snd (make_tables basename ss sim s)) = (trace s ++ tab)%list /\
    Forall is_table_call tab.
Proof.
  intros Hd.
  assert (Hloop : forall b x y, Forall (@is_table_call Universe FreqResol Channel Row)
                                       (loop_calls b x y d)).
  { intros b x y. unfold loop_calls. apply Forall_forall.
    intros c Hc. apply in_map_iff in Hc. destruct Hc as (e & <- & _). exact I. }
  destruct ss.
  - rewrite (make_tables_summary _ _ _ _ Hd). cbv zeta.
    destruct (ODict.values (sum_entries (loop_tables basename true sim d [])));
      (eexists; split; [reflexivity|]);
      (apply Forall_app; split; [apply Hloop | repeat constructor]).
  - rewrite (make_tables_plain _ _ _ _ Hd). cbv zeta.
    eexists; split; [reflexivity | apply Hloop].
Qed.

(** ** The claims *)

(** C1. [run] computes n = max(nsky_sim, 1) * max(ndet_sim, 1); when n = 1 it
    calls [make_tables] with save_summary False whatever the configuration
    says, and otherwise with the configured flag. With the flag False,
    [make_tables] returns the collection as the loop over the Sensitivity
    objects left it: every table in it is a per-sample table, and the trace
    shows the calls of the loop and no stacking. *)
Theorem run_summary_policy (universe : Universe) (sim_cfg : SimConfig)
    (basename : string) s :
  let n := Z.max (nsky_sim sim_cfg) 1 * Z.max (ndet_sim sim_cfg) 1 in
  exists s1 s2 s3,
    eval_sky universe (nsky_sim sim_cfg) (freq_resol sim_cfg) s = (Ret tt, s1) /\
    eval_instrument (ndet_sim sim_cfg) (freq_resol sim_cfg) s1 = (Ret tt, s2) /\
    eval_sensitivities s2 = (Ret tt, s3) /\
    (n = 1 ->
     run universe sim_cfg basename s =
     discard (make_tables basename false (save_sim sim_cfg) s3)) /\
    (n <> 1 ->
     run universe sim_cfg basename s =
     discard (make_tables basename (save_summary sim_cfg)
                          (save_sim sim_cfg) s3)) /\
    (forall (sim : bool) (d : odict Sensitivity) s0,
        _sns_dict (self s0) = Some d ->
        let T := loop_tables basename false sim d [] in
        make_tables basename false sim s0 =
        (Ret (Some T), log (loop_calls basename false sim d)
                           (with_tables (Some T) s0)) /\
        forall name, In name (ODict.keys T) -> is_sims_name basename d name).
Proof.
  intros n.
  destruct (stages_spec universe (nsky_sim sim_cfg) (ndet_sim sim_cfg)
                        (freq_resol sim_cfg) s) as (H1 & H2 & H3).
  do 3 eexists. split; [exact H1|]. split; [exact H2|]. split; [exact H3|].
  pose proof (run_spec universe sim_cfg basename _ _ _ _ H1 H2 H3) as Hrun.
  fold n in Hrun. split; [|split].
  - intros Hn. rewrite Hrun. apply Z.eqb_eq in Hn. now rewrite Hn.
  - intros Hn. rewrite Hrun. apply Z.eqb_neq in Hn. now rewrite Hn.
  - intros sim d s0 Hd T. split.
    + apply make_tables_plain. exact Hd.
    + apply loop_tables_plain_keys with (d0 := d).
      * apply incl_refl.
      * intros name [].
Qed.

(** C2, amended. When [save_summary] is true, the collection written by the
    loop holds at least one table whose key contains the marker '_summary',
    and no key of it begins with the marker, [make_tables] pops exactly the
    tables whose key contains the marker, stacks them in one call in the
    order of the collection, and stores the result under the single key
    basename + 'summary'; it returns the collection it holds in [_tables],
    in which no key other than that one contains the marker. *)
Theorem make_tables_summary_extraction (basename : string) (sim : bool)
    (d : odict Sensitivity) s :
  _sns_dict (self s) = Some d ->
  let T := loop_tables basename true sim d [] in
  (exists key, In key (ODict.keys T) /\ has_marker key) ->
  (forall key, In key (ODict.keys T) -> ~ PyStr.startswith key "_summary") ->
  exists popped R s',
    make_tables basename true sim s = (Ret (Some R), s') /\
    _tables (self s') = Some R /\
    popped = ODict.values (sum_entries T) /\
    (forall e, In e T -> (In e (sum_entries T) <-> has_marker (fst e))) /\
    trace s' = (trace s ++ loop_calls basename true sim d ++ [Vstack popped])%list /\
    R = ODict.set (basename ++ "summary") (List.concat popped) (rest_entries T) /\
    ODict.get (basename ++ "summary") R = Some (List.concat popped) /\
    count_occ string_dec (ODict.keys R) (basename ++ "summary") = 1%nat /\
    (forall key, In key (ODict.keys R) -> key <> basename ++ "summary" ->
                 ~ has_marker key).
Proof.
  intros Hd T [key0 [Hin0 Hm0]] Hstart.
  assert (Hkey : forall key, In key (ODict.keys T) ->
                             (is_sum_key key = true <-> has_marker key)).
  { intros key Hin. unfold is_sum_key, has_marker.
    rewrite Z.ltb_lt, PyStrFacts.find_pos. specialize (Hstart key Hin). tauto. }
  assert (Hsum : forall e, In e T -> (In e (sum_entries T) <-> has_marker (fst e))).
  { intros e He. unfold sum_entries. rewrite filter_In, <- Hkey.
    - tauto.
    - apply in_map. exact He. }
  pose proof (make_tables_summary basename sim d s Hd) as Hrun.
  cbv zeta in Hrun. fold T in Hrun.
  destruct (ODict.values (sum_entries T)) as [|p ps] eqn:Hp.
  - exfalso. apply in_map_iff in Hin0. destruct Hin0 as (e & <- & He).
    apply Hsum in Hm0; [|exact He].
    unfold ODict.values in Hp. apply map_eq_nil in Hp.
    rewrite Hp in Hm0. destruct Hm0.
  - set (R := ODict.set (basename ++ "summary") (List.concat (p :: ps))
                        (rest_entries T)) in *.
    exists (p :: ps), R. eexists. split; [exact Hrun|].
    split; [reflexivity|]. split; [reflexivity|]. split; [exact Hsum|].
    split; [destruct s; reflexivity|]. split; [reflexivity|].
    split; [apply ODictFacts.get_set_same|]. split.
    + apply NoDup_count_occ'.
      * apply ODictFacts.set_NoDup. unfold rest_entries.
        rewrite (ODictFacts.keys_filter (fun k => negb (is_sum_key k))).
        apply NoDup_filter, loop_tables_NoDup. constructor.
      * apply ODictFacts.keys_set. now left.
    + intros key Hin Hne Hm. apply ODictFacts.keys_set in Hin.
      destruct Hin as [->|Hin]; [now apply Hne|].
      unfold rest_entries in Hin.
      rewrite (ODictFacts.keys_filter (fun k => negb (is_sum_key k))) in Hin.
      apply filter_In in Hin. destruct Hin as [Hin Hneg].
      apply Hkey in Hm; [|exact Hin]. rewrite Hm in Hneg. discriminate.
Qed.

(** C3, amended. Whatever [_sns_dict] held before, [eval_sensitivities]
    replaces it by a dictionary built from the empty one out of the
    (camera, channel) pairs existing at call time: its keys are distinct and
    are exactly the concatenations camera_name + channel_name of the pairs;
    when those concatenations are pairwise distinct it holds exactly one
    entry per pair, in iteration order, each the Sensitivity of its channel;
    and calling it a second time yields the same dictionary, hence the same
    keys. *)
Theorem eval_sensitivities_rebuild s :
  let pairs := sns_pairs (cameras (self s)) in
  exists d s',
    eval_sensitivities s = (Ret tt, s') /\
    _sns_dict (self s') = Some d /\
    d = collect pairs [] /\
    cameras (self s') = cameras (self s) /\
    _tables (self s') = _tables (self s) /\
    NoDup (ODict.keys d) /\
    (forall key, In key (ODict.keys d) <-> In key (map fst pairs)) /\
    (NoDup (map fst pairs) -> d = map sns_entry pairs) /\
    exists s'',
      eval_sensitivities s' = (Ret tt, s'') /\ _sns_dict (self s'') = Some d.
Proof.
  intros pairs. exists (collect pairs []). eexists.
  split; [apply eval_sensitivities_spec|].
  repeat (split; [reflexivity|]). split; [|split; [|split]].
  - apply collect_NoDup. constructor.
  - intros key. rewrite collect_keys. simpl. tauto.
  - intros Hnd. apply (collect_distinct pairs [] Hnd). intros k _ [].
  - eexists. split; [apply eval_sensitivities_spec|]. reflexivity.
Qed.

(** C4. Every call of [run] goes through the four stages in order: the sky
    stage with [nsky_sim], the instrument stage with [ndet_sim], the
    sensitivity stage, each returning normally, then [make_tables], whose
    outcome is the outcome of [run]. The trace shows the calls of the first
    three stages in that order, followed by calls of the tabulation stage
    only. *)
Theorem run_stage_order (universe : Universe) (sim_cfg : SimConfig)
    (basename : string) s :
  let nsky := nsky_sim sim_cfg in
  let ndet := ndet_sim sim_cfg in
  let fr := freq_resol sim_cfg in
  let cams := ODict.keys (cameras (self s)) in
  exists s1 s2 s3 flag tab,
    eval_sky universe nsky fr s = (Ret tt, s1) /\
    eval_instrument ndet fr s1 = (Ret tt, s2) /\
    eval_sensitivities s2 = (Ret tt, s3) /\
    run universe sim_cfg basename s =
    discard (make_tables basename flag (save_sim sim_cfg) s3) /\
    trace (snd (run universe sim_cfg basename s)) =
    (trace s
     ++ (Universe_sample universe nsky :: ObsEffic_sample nsky
         :: map (fun cam => Camera_eval_sky cam universe fr) cams)
     ++ flat_map (fun cam => [Camera_sample cam ndet;
                              Camera_eval_optical_chains cam ndet fr;
                              Camera_eval_det_response cam ndet fr]) cams
     ++ map (fun p => Sensitivity_init (snd p)) (sns_pairs (cameras (self s)))
     ++ tab)%list /\
    Forall is_table_call tab.
Proof.
  intros nsky ndet fr cams.
  destruct (stages_spec universe nsky ndet fr s) as (H1 & H2 & H3).
  pose proof (run_spec universe sim_cfg basename _ _ _ _ H1 H2 H3) as Hrun.
  match type of Hrun with _ = discard (make_tables _ ?f _ ?s3) =>
    destruct (make_tables_trace basename f (save_sim sim_cfg)
                (collect (sns_pairs (cameras (self s))) []) s3 eq_refl)
      as (tab & Htab & Hall)
  end.
  do 4 eexists. exists tab.
  split; [exact H1|]. split; [exact H2|]. split; [exact H3|].
  split; [exact Hrun|]. split; [|exact Hall].
  rewrite Hrun.
  match goal with |- trace (snd (discard ?r)) = _ =>
    replace (trace (snd (discard r))) with (trace (snd r))
      by (unfold discard; now destruct r as [[a|e] s'])
  end.
  rewrite Htab.
  unfold log, with_sns_dict, sky_calls, instrument_calls, sns_calls, camera_calls.
  cbn [self trace]. fold cams.
  now rewrite <- !app_assoc.
Qed.

(** C5. On an Instrument whose [_sns_dict] is empty, [make_tables] with
    save_summary True raises: nothing is popped, the stacking is called on
    no table and fails, and the error reaches the caller; [_tables] is left
    as the empty collection. *)
Theorem make_tables_empty_raises (basename : string) (sim : bool) s :
  _sns_dict (self s) = Some [] ->
  make_tables basename true sim s =
  (Raise ValueError, log [Vstack []] (with_tables (Some []) s)).
Proof.
  intros Hd. rewrite (make_tables_summary basename sim [] s Hd). reflexivity.
Qed.

(** C6. [eval_sky(universe, n, freq_resol)] first has the universe draw [n]
    samples, then resamples [obs_effic] with the same [n], and only then
    calls [eval_sky] on every camera, in the order of [cameras]; it returns
    None and leaves the fields of the Instrument as they were. *)
Theorem eval_sky_order (universe : Universe) (n : Z) (fr : FreqResol) s :
  exists s',
    eval_sky universe n fr s = (Ret tt, s') /\
    self s' = self s /\
    trace s' =
    (trace s ++ Universe_sample universe n :: ObsEffic_sample n
       :: map (fun cam => Camera_eval_sky cam universe fr)
              (ODict.keys (cameras (self s))))%list.
Proof.
  eexists. split; [apply eval_sky_spec|]. split; reflexivity.
Qed.

(** C7. [eval_instrument(nsamples, freq_resol)] makes, for each camera in
    the order of [cameras], the three calls sample, eval_optical_chains,
    eval_det_response, in this order and all three before the next camera,
    and nothing else. The calls a camera receives are these three, with the
    arguments of [eval_instrument] alone: nothing computed for another
    camera is passed to it. *)
Theorem eval_instrument_order (nsamples : Z) (fr : FreqResol) s :
  let cams := ODict.keys (cameras (self s)) in
  exists s',
    eval_instrument nsamples fr s = (Ret tt, s') /\
    self s' = self s /\
    trace s' =
    (trace s
     ++ flat_map (fun cam => [Camera_sample cam nsamples;
                              Camera_eval_optical_chains cam nsamples fr;
                              Camera_eval_det_response cam nsamples fr])
                 cams)%list /\
    (NoDup cams ->
     forall cam, In cam cams ->
       calls_on cam (trace s') =
       (calls_on cam (trace s)
        ++ [Camera_sample cam nsamples;
            Camera_eval_optical_chains cam nsamples fr;
            Camera_eval_det_response cam nsamples fr])%list).
Proof.
  intros cams. eexists. split; [apply eval_instrument_spec|].
  split; [reflexivity|]. split; [reflexivity|].
  intros Hnd cam Hin. unfold log. cbn [trace].
  rewrite calls_on_app. f_equal.
  now apply calls_on_instrument_calls.
Qed.

(** C8. When two (camera, channel) pairs have the same concatenated key,
    [eval_sensitivities] returns normally, the key holds the Sensitivity of
    the pair that comes last under it, and [_sns_dict] has fewer entries
    than there are pairs. *)
Theorem eval_sensitivities_collision s (l1 l2 l3 : list (string * Channel))
    (key : string) (ch1 ch2 : Channel) :
  sns_pairs (cameras (self s)) = (l1 ++ (key, ch1) :: l2 ++ (key, ch2) :: l3)%list ->
  ~ In key (map fst l3) ->
  exists d s',
    eval_sensitivities s = (Ret tt, s') /\
    _sns_dict (self s') = Some d /\
    ODict.get key d = Some {| sns_channel := ch2 |} /\
    (List.length d < List.length (sns_pairs (cameras (self s))))%nat.
Proof.
  intros Hpairs Hlast.
  exists (collect (sns_pairs (cameras (self s))) []). eexists.
  split; [apply eval_sensitivities_spec|]. split; [reflexivity|]. split.
  - rewrite Hpairs.
    replace (l1 ++ (key, ch1) :: l2 ++ (key, ch2) :: l3)%list
      with ((l1 ++ (key, ch1) :: l2) ++ (key, ch2) :: l3)%list
      by (now rewrite <- app_assoc).
    now apply collect_get_last.
  - apply collect_length_collision. rewrite Hpairs.
    rewrite map_app. simpl. intros Hnd.
    apply NoDup_remove_2 in Hnd. apply Hnd.
    rewrite in_app_iff. right. rewrite map_app, in_app_iff. right. now left.
Qed.

(** C9. [write_tables(filename)] on an Instrument whose [_tables] is None
    returns normally, serialises nothing and changes nothing. *)
Theorem write_tables_unset (filename : string) s :
  _tables (self s) = None -> write_tables filename s = (Ret tt, s).
Proof.
  intros H. apply write_tables_falsy. now rewrite H.
Qed.

(** C10, amended. Once [make_tables] has been called, [write_tables]
    serialises the collection also when it holds no table, as
    [make_tables] leaves it when there is no Sensitivity and no summary is
    asked for: it makes the one call of [save_datatables] with that
    collection and changes nothing else. The guard is false only while
    [_tables] is unset. *)
Theorem write_tables_empty (filename : string) s :
  (forall t : TableDict,
      _tables (self s) = Some t ->
      write_tables filename s =
      (Ret tt, log [Save_datatables filename t] s)) /\
  (forall (basename : string) (sim : bool),
      _sns_dict (self s) = Some [] ->
      exists s',
        make_tables basename false sim s = (Ret (Some []), s') /\
        _tables (self s') = Some [] /\
        write_tables filename s' =
        (Ret tt, log [Save_datatables filename []] s')).
Proof.
  split.
  - intros t H. now apply write_tables_set.
  - intros basename sim Hd. eexists.
    split; [apply (make_tables_plain basename sim [] s Hd)|].
    split; [reflexivity|].
    now apply write_tables_set.
Qed.

End Properties.

(** ** The claims on concrete instruments *)

Import Example.

(** Two cameras of two channels, basename 'out_': the four summary tables
    are stacked under 'out_summary'. *)
Lemma make_tables_summary_extraction_witness :
  exists R s',
    make_tables "out_" true true (evaluated two_by_two) = (Ret (Some R), s') /\
    ODict.get "out_summary" R =
      Some [(1, true); (2, true); (3, true); (4, true)]%nat /\
    ODict.keys R =
      ["out_cam1ch1_sims"; "out_cam1ch2_sims"; "out_cam2ch1_sims";
       "out_cam2ch2_sims"; "out_summary"] /\
    (forall key, In key (ODict.keys R) -> key <> "out_summary" ->
                 ~ has_marker key).
Proof.
  destruct (make_tables_summary_extraction "out_" true
              (collect (sns_pairs two_by_two) []) (evaluated two_by_two)
              eq_refl)
    as (popped & R & s' & Hrun & _ & Hpop & _ & _ & HR & Hget & _ & Hno).
  - exists "out_cam1ch1_summary". split.
    + vm_compute. auto.
    + exists "out_cam1ch1", "". reflexivity.
  - intros key Hin [post Hpost]. vm_compute in Hin.
    repeat (destruct Hin as [<-|Hin]; [discriminate Hpost|]). destruct Hin.
  - exists R, s'. split; [exact Hrun|]. split; [|split; [|exact Hno]].
    + cbn [append] in Hget. rewrite Hget, Hpop. reflexivity.
    + rewrite HR, Hpop. reflexivity.
Defined.

(** C2 as stated fails when no table is to be stacked: with an empty
    [_sns_dict] nothing is returned, and nothing is stored under
    basename + 'summary'. *)
Lemma make_tables_summary_counterexample :
  ~ (exists R s',
        make_tables "out_" true true (evaluated []) = (Ret (Some R), s') /\
        In "out_summary" (ODict.keys R)).
Proof.
  intros (R & s' & Hrun & _). vm_compute in Hrun. discriminate Hrun.
Qed.

(** When every key begins with the marker, none is popped either, though
    each contains it: [find] returns 0 for them. *)
Lemma make_tables_leading_marker :
  exists s',
    make_tables "_summary_" true true (evaluated two_by_two)
    = (Raise ValueError, s') /\
    option_map ODict.keys (_tables (self s')) =
    Some ["_summary_cam1ch1_summary"; "_summary_cam1ch1_sims";
          "_summary_cam1ch2_summary"; "_summary_cam1ch2_sims";
          "_summary_cam2ch1_summary"; "_summary_cam2ch1_sims";
          "_summary_cam2ch2_summary"; "_summary_cam2ch2_sims"].
Proof. eexists. split; vm_compute; reflexivity. Qed.

(** Two cameras of two channels: four distinct keys, four entries. *)
Lemma eval_sensitivities_rebuild_witness :
  NoDup (map fst (sns_pairs two_by_two)) /\
  exists s',
    eval_sensitivities (fresh two_by_two) = (Ret tt, s') /\
    _sns_dict (self s') =
      Some [("cam1ch1", {| sns_channel := 1%nat |});
            ("cam1ch2", {| sns_channel := 2%nat |});
            ("cam2ch1", {| sns_channel := 3%nat |});
            ("cam2ch2", {| sns_channel := 4%nat |})].
Proof.
  assert (Hnd : NoDup (map fst (sns_pairs two_by_two))).
  { vm_compute.
    repeat (constructor; [simpl; intuition discriminate|]). constructor. }
  split; [exact Hnd|].
  destruct (eval_sensitivities_rebuild (fresh two_by_two))
    as (d & s' & Hrun & Hd & _ & _ & _ & _ & _ & Hone & _).
  exists s'. split; [exact Hrun|].
  rewrite Hd, (Hone Hnd). reflexivity.
Defined.

(** C3 as stated fails when two pairs share a key: the cameras "a" and
    "ab" with the channels "bc" and "c" give two pairs and one entry. *)
Lemma eval_sensitivities_pairs_counterexample :
  ~ (exists d s',
        eval_sensitivities (fresh colliding) = (Ret tt, s') /\
        _sns_dict (self s') = Some d /\
        List.length d = List.length (sns_pairs colliding)).
Proof.
  intros (d & s' & Hrun & Hd & Hlen).
  vm_compute in Hrun. injection Hrun as <-.
  simpl in Hd. injection Hd as <-. discriminate Hlen.
Qed.

(** No camera, hence an empty [_sns_dict]: the summary raises. *)
Lemma make_tables_empty_raises_witness :
  make_tables "out_" true true (evaluated []) =
  (Raise ValueError, log [Vstack []] (with_tables (Some []) (evaluated []))).
Proof. apply (make_tables_empty_raises "out_" true (evaluated [])). reflexivity. Defined.

(** The calls the second of two cameras receives. *)
Lemma eval_instrument_order_witness :
  exists s',
    eval_instrument 3 None (fresh two_by_two) = (Ret tt, s') /\
    calls_on "cam2" (trace s') =
      [Camera_sample "cam2" 3;
       Camera_eval_optical_chains "cam2" 3 None;
       Camera_eval_det_response "cam2" 3 None].
Proof.
  destruct (eval_instrument_order 3 None (fresh two_by_two))
    as (s' & Hrun & _ & _ & Hcam).
  exists s'. split; [exact Hrun|].
  apply (Hcam ltac:(vm_compute; repeat (constructor; [simpl; intuition discriminate|]); constructor)
              "cam2").
  vm_compute. auto.
Defined.

(** The cameras 'a' and 'ab' with the channels 'bc' and 'c': the key 'abc'
    keeps the second channel. *)
Lemma eval_sensitivities_collision_witness :
  exists d s',
    eval_sensitivities (fresh colliding) = (Ret tt, s') /\
    _sns_dict (self s') = Some d /\
    ODict.get "abc" d = Some {| sns_channel := 2%nat |} /\
    (List.length d < List.length (sns_pairs (cameras (self (fresh colliding)))))%nat.
Proof.
  apply (eval_sensitivities_collision (fresh colliding) [] [] [] "abc" 1%nat 2%nat).
  - reflexivity.
  - simpl. auto.
Defined.

(** A new Instrument writes nothing. *)
Lemma write_tables_unset_witness :
  write_tables "out.fits" (fresh two_by_two) = (Ret tt, fresh two_by_two).
Proof. apply (write_tables_unset "out.fits" (fresh two_by_two)). reflexivity. Defined.

(** No camera and no summary: the collection is set, empty, and written. *)
Lemma write_tables_empty_witness :
  exists s',
    make_tables "out_" false true (evaluated []) = (Ret (Some []), s') /\
    _tables (self s') = Some [] /\
    write_tables "out.fits" s' =
    (Ret tt, log [Save_datatables "out.fits" []] s').
Proof.
  destruct (write_tables_empty "out.fits" (evaluated [])) as [_ H].
  apply (H "out_" true). reflexivity.
Defined.

(** C10 as stated fails: after [make_tables] without any Sensitivity and
    without summary, [write_tables] does not leave the trace as it was,
    it calls [save_datatables]. *)
Lemma write_tables_empty_counterexample :
  ~ (forall s',
        make_tables "out_" false true (evaluated []) = (Ret (Some []), s') ->
        write_tables "out.fits" s' = (Ret tt, s')).
Proof.
  intros H.
  specialize (H _ (make_tables_plain "out_" true [] (evaluated []) eq_refl)).
  vm_compute in H. discriminate H.
Qed.

(** A collection that holds a table is serialised. *)
Lemma write_tables_after_run :
  exists s' t,
    run tt mc_cfg "out_" (fresh two_by_two) = (Ret tt, s') /\
    _tables (self s') = Some t /\
    write_tables "out.fits" s' = (Ret tt, log [Save_datatables "out.fits" t] s').
Proof. do 2 eexists. repeat split; vm_compute; reflexivity. Qed.

(** Five sky draws, summary on: one key is basename + 'summary', no other
    key holds the marker. *)
Lemma run_monte_carlo_keys :
  exists s',
    run tt mc_cfg "out_" (fresh two_by_two) = (Ret tt, s') /\
    option_map ODict.keys (_tables (self s')) =
    Some ["out_cam1ch1_sims"; "out_cam1ch2_sims"; "out_cam2ch1_sims";
          "out_cam2ch2_sims"; "out_summary"].
Proof. eexists. split; vm_compute; reflexivity. Qed.

(** No draw at all: the configured summary is not made. *)
Lemma run_deterministic_keys :
  exists s',
    run tt det_cfg "out_" (fresh two_by_two) = (Ret tt, s') /\
    option_map ODict.keys (_tables (self s')) =
    Some ["out_cam1ch1_sims"; "out_cam1ch2_sims"; "out_cam2ch1_sims";
          "out_cam2ch2_sims"].
Proof. eexists. split; vm_compute; reflexivity. Qed.

(** Without any camera, a run that asks for the summary ends in the error
    of the stacking. *)
Lemma run_no_camera_raises :
  exists s', run tt mc_cfg "out_" (fresh []) = (Raise ValueError, s').
Proof. eexists. vm_compute. reflexivity. Qed.

(** The deterministic configuration asks for the summary and [run] calls
    [make_tables] without it. *)
Lemma run_summary_policy_witness :
  exists s3,
    run tt det_cfg "out_" (fresh two_by_two) =
    discard (make_tables "out_" false true s3).
Proof.
  destruct (run_summary_policy tt det_cfg "out_" (fresh two_by_two))
    as (s1 & s2 & s3 & _ & _ & _ & Hone & _ & _).
  exists s3. apply Hone. reflexivity.
Defined.

(** * Further properties of the methods *)

Module ODictMore.
Section Facts.
Context {V : Type}.
Implicit Types (d : odict V) (k : string) (v : V).

(** An entry under another key stays where a key is assigned. *)
Lemma In_set_other k v d k' v' :
  k' <> k -> In (k', v') d -> In (k', v') (ODict.set k v d).
Proof.
  intros Hne. induction d as [|[k0 v0] d IH]; simpl; [tauto|].
  intros [H|H].
  - injection H as -> ->.
    destruct (String.eqb_spec k' k); [contradiction | now left].
  - destruct (String.eqb_spec k0 k); right; auto.
Qed.

(** The keys after an assignment: unchanged for a key already there, one
    more at the end otherwise. *)
Lemma keys_set_cases k v d :
  ODict.keys (ODict.set k v d) =
  if existsb (String.eqb k) (ODict.keys d) then ODict.keys d
  else (ODict.keys d ++ [k])%list.
Proof.
  induction d as [|[k0 v0] d IH]; simpl; [reflexivity|].
  rewrite (String.eqb_sym k k0).
  destruct (String.eqb k0 k) eqn:E; simpl; [reflexivity|].
  rewrite IH. now destruct (existsb (String.eqb k) (ODict.keys d)).
Qed.

End Facts.
End ODictMore.

Section Further.

Context {Universe FreqResol Channel Row : Type}.
Context {rows : SensitivityRows Channel Row}.

Local Abbreviation State := (@State Universe FreqResol Channel Row).
Local Abbreviation call := (@call Universe FreqResol Channel Row).
Local Abbreviation M := (@M Universe FreqResol Channel Row).

Implicit Types (s : State) (cs : list call).

(** ** [make_tables] *)

Lemma make_tables_no_dict (basename : string) (ss sim : bool) s :
  _sns_dict (self s) = None ->
  make_tables basename ss sim s =
  (Raise AttributeError, with_tables (Some []) s).
Proof.
  destruct s as [[c t sd] tr]. simpl. intros ->.
  unfold make_tables.
  erewrite bind_ret_eq; [|reflexivity].
  erewrite bind_raise_eq; reflexivity.
Qed.

(** The three ways [make_tables] ends, by what the state holds. *)
Lemma make_tables_cases (basename : string) (ss sim : bool) s :
  (_sns_dict (self s) = None /\
   make_tables basename ss sim s =
   (Raise AttributeError, with_tables (Some []) s)) \/
  (exists d T cs,
      _sns_dict (self s) = Some d /\
      make_tables basename ss sim s =
      (Raise ValueError, log cs (with_tables (Some T) s))) \/
  (exists d R cs,
      _sns_dict (self s) = Some d /\
      make_tables basename ss sim s =
      (Ret (Some R), log cs (with_tables (Some R) s))).
Proof.
  destruct (_sns_dict (self s)) as [d|] eqn:Hd.
  - right. destruct ss.
    + pose proof (make_tables_summary basename sim d s Hd) as H.
      cbv zeta in H.
      destruct (ODict.values (sum_entries (loop_tables basename true sim d [])));
        [left | right]; do 3 eexists; (split; [reflexivity | exact H]).
    + right. do 3 eexists. split; [reflexivity|].
      exact (make_tables_plain basename sim d s Hd).
  - left. split; [reflexivity|]. now apply make_tables_no_dict.
Qed.

(** X1. Called before [eval_sensitivities] ([_sns_dict] still None),
    [make_tables] raises AttributeError whatever its arguments; it makes
    no call, but it has already replaced [_tables] by an empty collection:
    tables of an earlier call are gone. *)
Theorem make_tables_before_sensitivities (basename : string) (ss sim : bool) s :
  _sns_dict (self s) = None ->
  exists s',
    make_tables basename ss sim s = (Raise AttributeError, s') /\
    _tables (self s') = Some [] /\
    cameras (self s') = cameras (self s) /\
    _sns_dict (self s') = None /\
    trace s' = trace s.
Proof.
  intros Hd. eexists. split; [now apply make_tables_no_dict|].
  repeat split. exact Hd.
Qed.

Lemma make_tables_with_tables (basename : string) (ss sim : bool)
    (v : option TableDict) s :
  make_tables basename ss sim (with_tables v s) =
  make_tables basename ss sim s.
Proof.
  unfold make_tables.
  assert (H : set_tables (Some TableDict_new) (with_tables v s) =
              set_tables (Some TableDict_new) s) by reflexivity.
  unfold bind at 1 6. now rewrite H.
Qed.

(** X2. What [_tables] held before the call has no influence on
    [make_tables]: from two states that differ in [_tables] only, the
    outcome and the state it leaves are the same. *)
Theorem make_tables_supersedes (basename : string) (ss sim : bool) s1 s2 :
  cameras (self s1) = cameras (self s2) ->
  _sns_dict (self s1) = _sns_dict (self s2) ->
  trace s1 = trace s2 ->
  make_tables basename ss sim s1 = make_tables basename ss sim s2.
Proof.
  destruct s1 as [[c1 t1 d1] tr1], s2 as [[c2 t2 d2] tr2]. simpl.
  intros -> -> ->.
  exact (make_tables_with_tables basename ss sim t1
           {| self := {| cameras := c2; _tables := t2; _sns_dict := d2 |};
              trace := tr2 |}).
Qed.

(** X3. However [make_tables] ends, it leaves the cameras and [_sns_dict]
    as they were, and [_tables] holds a collection. *)
Theorem make_tables_frame (basename : string) (ss sim : bool) s :
  let s' := snd (make_tables basename ss sim s) in
  cameras (self s') = cameras (self s) /\
  _sns_dict (self s') = _sns_dict (self s) /\
  exists t, _tables (self s') = Some t.
Proof.
  destruct (make_tables_cases basename ss sim s)
    as [[_ H] | [(d & T & cs & _ & H) | (d & R & cs & _ & H)]];
    rewrite H; simpl; (split; [reflexivity|]); (split; [reflexivity|]);
    eexists; reflexivity.
Qed.

(** X4. When [make_tables] returns, what it returns is the collection it
    stored in [_tables]; if that collection holds a table, a following
    [write_tables] serialises exactly this collection, in one call. *)
Theorem make_tables_then_write (basename filename : string) (ss sim : bool)
    (r : option TableDict) s s' :
  make_tables basename ss sim s = (Ret r, s') ->
  exists R,
    r = Some R /\
    _tables (self s') = Some R /\
    (R <> [] ->
     write_tables filename s' = (Ret tt, log [Save_datatables filename R] s')).
Proof.
  intros Hrun.
  destruct (make_tables_cases basename ss sim s)
    as [[_ H] | [(d & T & cs & _ & H) | (d & R & cs & _ & H)]];
    rewrite H in Hrun; try discriminate Hrun.
  injection Hrun as <- <-. exists R.
  split; [reflexivity|]. split; [reflexivity|].
  intros HR. now apply write_tables_nonempty.
Qed.

(** X5. The test [key.find('_summary') > 0] selects exactly the keys in
    which the marker occurs and which do not begin with it. *)
Theorem is_sum_key_iff (key : string) :
  is_sum_key key = true <->
  has_marker key /\ ~ PyStr.startswith key "_summary".
Proof.
  unfold is_sum_key, has_marker.
  rewrite Z.ltb_lt. apply PyStrFacts.find_pos.
Qed.

Lemma leading_marker_not_selected (key : string) :
  PyStr.startswith key "_summary" -> is_sum_key key = false.
Proof.
  intros H. destruct (is_sum_key key) eqn:E; [|reflexivity].
  unfold is_sum_key in E. apply Z.ltb_lt in E.
  apply PyStrFacts.find_zero in H. lia.
Qed.

(** X6. A table whose key begins with the marker is never taken into the
    summary: whether [make_tables] returns or raises, the table is still in
    [_tables] afterwards (unless its key is the very key of the summary). *)
Theorem make_tables_keeps_leading_marker (basename : string) (sim : bool)
    (d : odict Sensitivity) (key : string) (table : Table) s :
  _sns_dict (self s) = Some d ->
  In (key, table) (loop_tables basename true sim d []) ->
  PyStr.startswith key "_summary" ->
  key <> basename ++ "summary" ->
  exists t,
    _tables (self (snd (make_tables basename true sim s))) = Some t /\
    In (key, table) t.
Proof.
  intros Hd Hin Hstart Hne.
  assert (Hrest : In (key, table)
                     (rest_entries (loop_tables basename true sim d []))).
  { unfold rest_entries. apply filter_In. split; [exact Hin|].
    simpl. now rewrite leading_marker_not_selected. }
  rewrite (make_tables_summary basename sim d s Hd). cbv zeta.
  destruct (ODict.values (sum_entries (loop_tables basename true sim d []))).
  - eexists. split; [reflexivity | exact Hrest].
  - eexists. split; [reflexivity|].
    apply ODictMore.In_set_other; assumption.
Qed.

(** ** [eval_sensitivities] *)

Lemma filter_filter_and {A} (p q : A -> bool) (l : list A) :
  filter p (filter q l) = filter (fun x => q x && p x) l.
Proof.
  induction l as [|x l IH]; simpl; [reflexivity|].
  destruct (q x); simpl; [destruct (p x)|]; now rewrite IH.
Qed.

(** The keys of [collect pairs d]: those of [d], then the new ones at the
    place of their first pair. *)
Lemma collect_key_order (pairs : list (string * Channel))
    (d : odict Sensitivity) :
  ODict.keys (collect pairs d) =
  (ODict.keys d
   ++ filter (fun k => negb (existsb (String.eqb k) (ODict.keys d)))
             (first_keys (map fst pairs)))%list.
Proof.
  revert d. induction pairs as [|[k ch] pairs IH]; intros d.
  - simpl. now rewrite app_nil_r.
  - change (collect ((k, ch) :: pairs) d)
      with (collect pairs (ODict.set k {| sns_channel := ch |} d)).
    rewrite IH, ODictMore.keys_set_cases. simpl map. simpl first_keys.
    cbn [filter].
    destruct (existsb (String.eqb k) (ODict.keys d)) eqn:E; cbn [negb].
    + f_equal. rewrite filter_filter_and. apply filter_ext_in.
      intros x _.
      destruct (String.eqb_spec k x) as [<-|Hx]; simpl; [now rewrite E|].
      reflexivity.
    + rewrite <- app_assoc. simpl. do 2 f_equal.
      rewrite filter_filter_and. apply filter_ext_in. intros x _.
      rewrite existsb_app. simpl. rewrite orb_false_r.
      rewrite (String.eqb_sym x k).
      destruct (String.eqb k x); simpl;
        now destruct (existsb (String.eqb x) (ODict.keys d)).
Qed.

Lemma collect_first_keys (pairs : list (string * Channel)) :
  ODict.keys (collect pairs []) = first_keys (map fst pairs).
Proof.
  rewrite collect_key_order. simpl.
  generalize (first_keys (map fst pairs)).
  intros l. induction l as [|k l IH]; simpl; congruence.
Qed.

(** X7. [eval_sensitivities] lists the keys of [_sns_dict] in the order in
    which they first occur among the (camera, channel) pairs: a key used
    twice keeps the place of its first pair. *)
Theorem eval_sensitivities_key_order s :
  exists d s',
    eval_sensitivities s = (Ret tt, s') /\
    _sns_dict (self s') = Some d /\
    ODict.keys d = first_keys (map fst (sns_pairs (cameras (self s)))).
Proof.
  do 2 eexists. split; [apply eval_sensitivities_spec|].
  split; [reflexivity|]. apply collect_first_keys.
Qed.

(** Two splittings of one string: one first part begins with the other. *)
Lemma append_eq_startswith (a b c d : string) :
  a ++ b = c ++ d -> PyStr.startswith c a \/ PyStr.startswith a c.
Proof.
  unfold PyStr.startswith. revert b c d.
  induction a as [|x a IH]; intros b c d H.
  - left. now exists c.
  - destruct c as [|y c].
    + right. now exists (String x a).
    + simpl in H. injection H as -> H.
      destruct (IH _ _ _ H) as [[p Hp]|[p Hp]]; [left | right];
        exists p; simpl; congruence.
Qed.

Lemma append_inj_r (a b c : string) : a ++ b = a ++ c -> b = c.
Proof.
  induction a as [|x a IH]; simpl; intros H; [exact H|].
  injection H as H. auto.
Qed.

Lemma NoDup_map_append (a : string) (l : list string) :
  NoDup l -> NoDup (map (String.append a) l).
Proof.
  induction 1 as [|x l Hx Hl IH]; simpl; constructor; [|exact IH].
  intros Hin. apply in_map_iff in Hin. destruct Hin as (y & Hy & Hin).
  apply append_inj_r in Hy. now subst.
Qed.

Lemma sns_pairs_cons (cam_name : string) (camera : @Camera Channel)
    (cams : odict Camera) :
  map fst (sns_pairs ((cam_name, camera) :: cams)) =
  (map (String.append cam_name) (ODict.keys (channels camera))
   ++ map fst (sns_pairs cams))%list.
Proof.
  unfold sns_pairs at 1. cbn [flat_map ODict.items]. fold (sns_pairs cams).
  rewrite map_app. f_equal. unfold ODict.items, ODict.keys.
  rewrite !map_map. apply map_ext. now intros [chn ch].
Qed.

Lemma sns_pairs_key (cams : odict (@Camera Channel)) (key : string) :
  In key (map fst (sns_pairs cams)) ->
  exists cam_name chan_name,
    In cam_name (ODict.keys cams) /\ key = cam_name ++ chan_name.
Proof.
  induction cams as [|[cn cam] cams IH]; [intros []|].
  rewrite sns_pairs_cons, in_app_iff. intros [H|H].
  - apply in_map_iff in H. destruct H as (chn & <- & _).
    exists cn, chn. split; [now left | reflexivity].
  - destruct (IH H) as (cn' & chn' & Hin & ->).
    exists cn', chn'. split; [now right | reflexivity].
Qed.

(** Prefix-free camera names give pairwise distinct keys. *)
Lemma sns_pairs_NoDup (cams : odict (@Camera Channel)) :
  NoDup (ODict.keys cams) ->
  prefix_free (ODict.keys cams) ->
  (forall name camera, In (name, camera) cams ->
                       NoDup (ODict.keys (channels camera))) ->
  NoDup (map fst (sns_pairs cams)).
Proof.
  induction cams as [|[cn cam] cams IH]; intros Hnd Hpf Hch; [constructor|].
  simpl in Hnd. inversion Hnd as [|? ? Hcn Hnd']; subst.
  rewrite sns_pairs_cons. apply NoDup_app.
  - apply NoDup_map_append. apply (Hch cn cam). now left.
  - apply IH; [exact Hnd'| |].
    + intros a b Ha Hb. apply Hpf; now right.
    + intros name camera Hin. apply (Hch name camera). now right.
  - intros key Hin Hin'.
    apply in_map_iff in Hin. destruct Hin as (chn & <- & _).
    apply sns_pairs_key in Hin'. destruct Hin' as (cn' & chn' & Hcn' & Heq).
    assert (Hne : cn <> cn') by (intros ->; contradiction).
    destruct (append_eq_startswith _ _ _ _ Heq) as [H|H]; revert H.
    + apply Hpf; [now right | now left | congruence].
    + apply Hpf; [now left | now right | exact Hne].
Qed.

(** X8. When the camera names are distinct and none begins with another,
    and the channel names of each camera are distinct, no two
    (camera, channel) pairs get the same key: [_sns_dict] then holds exactly
    one entry per pair, in iteration order, each the Sensitivity of its
    channel. *)
Theorem eval_sensitivities_prefix_free s :
  let cams := cameras (self s) in
  NoDup (ODict.keys cams) ->
  prefix_free (ODict.keys cams) ->
  (forall name camera, In (name, camera) cams ->
                       NoDup (ODict.keys (channels camera))) ->
  exists s',
    eval_sensitivities s = (Ret tt, s') /\
    _sns_dict (self s') = Some (map sns_entry (sns_pairs cams)).
Proof.
  intros cams Hnd Hpf Hch. eexists.
  split; [apply eval_sensitivities_spec|]. cbv zeta. simpl. f_equal.
  apply (collect_distinct (sns_pairs cams) []).
  - now apply sns_pairs_NoDup.
  - intros k _ [].
Qed.

(** ** [run] *)

Lemma trace_discard {A} (r : outcome A * State) :
  snd (discard r) = snd r.
Proof. now destruct r as [[a|e] s']. Qed.

(** The state in which [run] calls [make_tables]. *)
Lemma run_tabulates (universe : Universe) (sim_cfg : SimConfig)
    (basename : string) s :
  let cams := ODict.keys (cameras (self s)) in
  let pairs := sns_pairs (cameras (self s)) in
  let fr := freq_resol sim_cfg in
  let s3 := log (sky_calls universe (nsky_sim sim_cfg) fr cams
                 ++ instrument_calls (ndet_sim sim_cfg) fr cams
                 ++ sns_calls pairs)%list
                (with_sns_dict (Some (collect pairs [])) s) in
  run universe sim_cfg basename s =
  discard (make_tables basename
             (if (Z.max (nsky_sim sim_cfg) 1 * Z.max (ndet_sim sim_cfg) 1 =? 1)%Z
              then false else save_summary sim_cfg)
             (save_sim sim_cfg) s3).
Proof.
  cbv zeta.
  destruct (stages_spec universe (nsky_sim sim_cfg) (ndet_sim sim_cfg)
                        (freq_resol sim_cfg) s) as (H1 & H2 & H3).
  rewrite (run_spec universe sim_cfg basename _ _ _ _ H1 H2 H3).
  do 2 f_equal. unfold log, with_sns_dict. cbn [self trace cameras _tables].
  now rewrite <- !app_assoc.
Qed.

(** X9. [run] never serialises: whatever the configuration and however it
    ends, no call of [save_datatables] is among the calls it makes. *)
Theorem run_never_saves (universe : Universe) (sim_cfg : SimConfig)
    (basename : string) s :
  exists new,
    trace (snd (run universe sim_cfg basename s)) = (trace s ++ new)%list /\
    Forall (fun c => ~ is_save_call c) new.
Proof.
  rewrite run_tabulates. cbv zeta. rewrite trace_discard.
  match goal with |- context [make_tables _ ?f _ ?s3] =>
    destruct (make_tables_trace basename f (save_sim sim_cfg)
                (collect (sns_pairs (cameras (self s))) []) s3 eq_refl)
      as (tab & Htab & Hall)
  end.
  eexists. split.
  - rewrite Htab. unfold log. cbn [trace]. rewrite <- app_assoc. reflexivity.
  - repeat (apply Forall_app; split).
    + unfold sky_calls. repeat (constructor; [intros []|]).
      apply Forall_forall. intros c Hc. apply in_map_iff in Hc.
      destruct Hc as (cam & <- & _). intros [].
    + unfold instrument_calls. apply Forall_forall. intros c Hc.
      apply in_flat_map in Hc. destruct Hc as (cam & _ & Hc).
      unfold camera_calls in Hc. simpl in Hc.
      destruct Hc as [<-|[<-|[<-|[]]]]; intros [].
    + unfold sns_calls. apply Forall_forall. intros c Hc.
      apply in_map_iff in Hc. destruct Hc as (e & <- & _). intros [].
    + revert Hall. apply Forall_impl. intros [] Hc; try destruct Hc; intros [].
Qed.

(** X10. When no Monte Carlo draw is asked for (n = 1), or the
    configuration asks for no summary, [run] raises no error of its own
    and returns: [_sns_dict]
    holds the entries of the pairs and [_tables] what the loop over them
    wrote, without any summary table. *)
Theorem run_returns_without_summary (universe : Universe)
    (sim_cfg : SimConfig) (basename : string) s :
  Z.max (nsky_sim sim_cfg) 1 * Z.max (ndet_sim sim_cfg) 1 = 1 \/
  save_summary sim_cfg = false ->
  let d := collect (sns_pairs (cameras (self s))) [] in
  exists s',
    run universe sim_cfg basename s = (Ret tt, s') /\
    _sns_dict (self s') = Some d /\
    _tables (self s') =
      Some (loop_tables basename false (save_sim sim_cfg) d []) /\
    cameras (self s') = cameras (self s).
Proof.
  intros Hflag d. rewrite run_tabulates. cbv zeta.
  assert (Hf : (if (Z.max (nsky_sim sim_cfg) 1 * Z.max (ndet_sim sim_cfg) 1 =? 1)%Z
                then false else save_summary sim_cfg) = false).
  { destruct Hflag as [Hn|Hs].
    - apply Z.eqb_eq in Hn. now rewrite Hn.
    - rewrite Hs. now destruct (_ =? _)%Z. }
  rewrite Hf. erewrite make_tables_plain; [|reflexivity].
  eexists. split; [reflexivity|]. repeat split.
Qed.

(** X11. Errors inside the collaborators apart, [run] ends in one of two
    ways only: it returns None, or it raises the ValueError of the
    stacking. Either way the Instrument is left with
    [_sns_dict] rebuilt from the pairs, with a collection in [_tables] and
    with its cameras. *)
Theorem run_outcomes (universe : Universe) (sim_cfg : SimConfig)
    (basename : string) s :
  exists s',
    (run universe sim_cfg basename s = (Ret tt, s') \/
     run universe sim_cfg basename s = (Raise ValueError, s')) /\
    _sns_dict (self s') = Some (collect (sns_pairs (cameras (self s))) []) /\
    (exists t, _tables (self s') = Some t) /\
    cameras (self s') = cameras (self s).
Proof.
  rewrite run_tabulates. cbv zeta.
  match goal with |- context [make_tables _ ?f _ ?s3] =>
    destruct (make_tables_cases basename f (save_sim sim_cfg) s3)
      as [[H _] | [(d & T & cs & _ & H) | (d & R & cs & _ & H)]]
  end.
  - discriminate H.
  - rewrite H. eexists. split; [right; reflexivity|].
    split; [reflexivity|]. split; [eexists|]; reflexivity.
  - rewrite H. eexists. split; [left; reflexivity|].
    split; [reflexivity|]. split; [eexists|]; reflexivity.
Qed.

(** X12. A run supersedes what earlier runs derived: from two states that
    differ in [_tables] and [_sns_dict] only, [run] has the same outcome
    and leaves the same state. *)
Theorem run_supersedes (universe : Universe) (sim_cfg : SimConfig)
    (basename : string) s1 s2 :
  cameras (self s1) = cameras (self s2) ->
  trace s1 = trace s2 ->
  run universe sim_cfg basename s1 = run universe sim_cfg basename s2.
Proof.
  destruct s1 as [[c1 t1 d1] tr1], s2 as [[c2 t2 d2] tr2]. simpl.
  intros -> ->. rewrite !run_tabulates. cbv zeta. apply f_equal.
  unfold log, with_sns_dict. cbn [self trace cameras _tables _sns_dict].
  match goal with |- make_tables _ ?f _ _ = make_tables _ _ _ ?s3 =>
    exact (make_tables_with_tables basename f (save_sim sim_cfg) t1 s3)
  end.
Qed.

(** ** [print_summary] *)

Lemma print_summary_loop_spec (d : list (string * Sensitivity))
    (stream : list (@stream_op Channel)) :
  print_summary_loop d stream = (stream ++ flat_map summary_block d)%list.
Proof.
  revert stream. induction d as [|[key val] d IH]; intros stream.
  - simpl. now rewrite app_nil_r.
  - simpl print_summary_loop. rewrite IH. cbn [flat_map].
    unfold summary_block at 2. cbn [fst snd].
    now rewrite <- !app_assoc.
Qed.


(** X13. Called before [eval_sensitivities] ([_sns_dict] still None),
    [print_summary] raises AttributeError before it writes anything, and
    changes nothing. *)
Theorem print_summary_before_sensitivities (stream : list stream_op) s :
  _sns_dict (self s) = None ->
  print_summary stream s = (Raise AttributeError, s).
Proof.
  intros Hd. unfold print_summary.
  apply bind_raise_eq. unfold sns_dict_items, bind, get_self.
  now rewrite Hd.
Qed.

(** X14. With [_sns_dict] set, [print_summary] returns after appending to
    the stream, for each entry in the order of [_sns_dict], the line
    key + ' ---------', what the Sensitivity prints, and the line
    '---------'; what was on the stream stays, and the Instrument is
    unchanged. *)
Theorem print_summary_blocks (stream : list stream_op)
    (d : odict Sensitivity) s :
  _sns_dict (self s) = Some d ->
  print_summary stream s =
  (Ret (stream ++ flat_map summary_block d)%list, s).
Proof.
  intros Hd. unfold print_summary.
  erewrite bind_ret_eq.
  - unfold ret. now rewrite print_summary_loop_spec.
  - unfold sns_dict_items, bind, get_self. now rewrite Hd.
Qed.


(** ** [write_tables] *)

(** X16. [write_tables] raises no error of its own and never changes the
    Instrument, whatever [_tables] holds: it makes no call at all, or the
    one call of [save_datatables] with the whole collection of [_tables]. *)
Theorem write_tables_total (filename : string) s :
  exists cs,
    write_tables filename s = (Ret tt, log cs s) /\
    (cs = [] \/
     exists t, _tables (self s) = Some t /\
               cs = [Save_datatables filename t]).
Proof.
  destruct (_tables (self s)) as [t|] eqn:Ht.
  - exists [Save_datatables filename t]. split.
    + now apply write_tables_set.
    + right. exists t. now split.
  - exists []. split; [|now left].
    rewrite log_nil. apply write_tables_falsy. now rewrite Ht.
Qed.

End Further.

(** ** The further properties on concrete instruments *)

(** A new Instrument: the call fails and [_tables] is an empty collection. *)
Lemma make_tables_before_sensitivities_witness :
  exists s',
    make_tables "out_" true true (fresh two_by_two) = (Raise AttributeError, s') /\
    _tables (self s') = Some [].
Proof.
  destruct (make_tables_before_sensitivities "out_" true true (fresh two_by_two))
    as (s' & Hrun & Ht & _); [reflexivity|].
  exists s'. split; [exact Hrun | exact Ht].
Defined.

(** A table left by an earlier call does not show. *)
Lemma make_tables_supersedes_witness :
  make_tables "out_" true true
    (with_tables (Some [("old", [(7%nat, true)])]) (evaluated two_by_two)) =
  make_tables "out_" true true (evaluated two_by_two).
Proof. apply make_tables_supersedes; reflexivity. Defined.

(** The five tables [make_tables] returns are the ones written. *)
Lemma make_tables_then_write_witness :
  exists R s',
    make_tables "out_" true true (evaluated two_by_two) = (Ret (Some R), s') /\
    List.length R = 5%nat /\
    write_tables "out.fits" s' =
    (Ret tt, log [Save_datatables "out.fits" R] s').
Proof.
  let v := eval vm_compute in
             (make_tables "out_" true true (evaluated two_by_two)) in
  match v with
  | (Ret ?r, ?s') =>
      assert (H : make_tables "out_" true true (evaluated two_by_two)
                  = (Ret r, s')) by (vm_compute; reflexivity);
      destruct (make_tables_then_write "out_" "out.fits" true true r _ s' H)
        as (R & HR & _ & Hw);
      injection HR as <-;
      eexists; exists s'; split; [exact H|]; split; [reflexivity|];
      apply Hw; discriminate
  end.
Defined.

(** With the basename '_summary_' the summary table of a channel stays. *)
Lemma make_tables_keeps_leading_marker_witness :
  exists t,
    _tables (self (snd (make_tables "_summary_" true true
                                    (evaluated two_by_two)))) = Some t /\
    In ("_summary_cam1ch1_summary", [(1%nat, true)]) t.
Proof.
  apply (make_tables_keeps_leading_marker "_summary_" true
           (collect (sns_pairs two_by_two) [])).
  - reflexivity.
  - vm_compute. auto.
  - exists "_cam1ch1_summary". reflexivity.
  - discriminate.
Defined.

(** 'cam1' and 'cam2': neither begins with the other. *)
Lemma eval_sensitivities_prefix_free_witness :
  exists s',
    eval_sensitivities (fresh two_by_two) = (Ret tt, s') /\
    _sns_dict (self s') = Some (map sns_entry (sns_pairs two_by_two)).
Proof.
  apply (eval_sensitivities_prefix_free (fresh two_by_two)).
  - vm_compute. repeat (constructor; [simpl; intuition discriminate|]).
    constructor.
  - intros a b Ha Hb Hne [post Hpost]. vm_compute in Ha, Hb.
    destruct Ha as [<-|[<-|[]]]; destruct Hb as [<-|[<-|[]]];
      solve [now elim Hne | discriminate Hpost].
  - intros name camera Hin. vm_compute in Hin.
    destruct Hin as [H|[H|[]]]; injection H as <- <-; vm_compute;
      repeat (constructor; [simpl; intuition discriminate|]); constructor.
Defined.

(** The deterministic configuration returns, with four per-sample tables. *)
Lemma run_returns_without_summary_witness :
  exists s',
    run tt det_cfg "out_" (fresh two_by_two) = (Ret tt, s') /\
    option_map ODict.keys (_tables (self s')) =
    Some ["out_cam1ch1_sims"; "out_cam1ch2_sims"; "out_cam2ch1_sims";
          "out_cam2ch2_sims"].
Proof.
  destruct (run_returns_without_summary tt det_cfg "out_" (fresh two_by_two))
    as (s' & Hrun & _ & Ht & _); [left; reflexivity|].
  exists s'. split; [exact Hrun|]. rewrite Ht. reflexivity.
Defined.

(** A second run does not see the results of the first. *)
Lemma run_supersedes_witness :
  run tt mc_cfg "out_"
    (with_tables (Some [("old", [(7%nat, true)])]) (evaluated two_by_two)) =
  run tt mc_cfg "out_" (fresh two_by_two).
Proof. apply run_supersedes; reflexivity. Defined.

(** A new Instrument has nothing to print. *)
Lemma print_summary_before_sensitivities_witness :
  print_summary [] (fresh two_by_two) =
  (Raise AttributeError, fresh two_by_two).
Proof.
  apply (print_summary_before_sensitivities [] (fresh two_by_two)).
  reflexivity.
Defined.

(** The colliding cameras print one block, for the key 'abc'. *)
Lemma print_summary_blocks_witness :
  print_summary [] (evaluated colliding) =
  (Ret [Stream_write ("abc ---------" ++ newline);
        Sns_print_summary {| sns_channel := 2%nat |};
        Stream_write ("---------" ++ newline)],
   evaluated colliding).
Proof.
  apply (print_summary_blocks [] [("abc", {| sns_channel := 2%nat |})]
                              (evaluated colliding)).
  reflexivity.
Defined.
